(** * GeofenceServer: the task controller (app/controllers/task.js)

    A shallow embedding of the Express handlers of the task controller and
    of the store they talk to.  A handler is a finite tree of store queries
    ([Proc]); Node runs each callback to completion and only switches
    between requests at a query, so a query is the atomic step.

    Conventions.  Keys, balances, costs, counters and time stamps are
    integers.  A text is the sequence of the bytes of its UTF-8 form.
    Queries reach the store in the order in which a handler issues them,
    awaited or not.  The models (app/models), the middlewares
    and the constants are not part of the sources at hand: what the
    handlers take from them is a parameter ([Platform]) or is named where
    it is used. *)

From Stdlib Require Import ZArith Ascii String Sorted Lia.
From stdpp Require Import gmap strings list.

Local Open Scope Z_scope.

(** ** JavaScript numbers, as far as the controller looks at them *)

(** The result of [parseFloat]: the decimal literal that was read, kept
    exactly ([Dec neg m e] is [(-1)^neg * m * 10^e]).  The controller only
    tests the result for truthiness, which needs no rounding beyond the
    question whether the value becomes [0] as a double. *)
Inductive jsnum :=
| NaN
| Infinity (neg : bool)
| Dec (neg : bool) (m : N) (e : Z).

(** StrWhiteSpaceChar (WhiteSpace and LineTerminator of ECMA-262, with the
    Space_Separator class of Unicode from 6.3 on).  The one-byte ones:
    TAB, LF, VT, FF, CR, SP. *)
Definition is_ws (c : ascii) : bool :=
  let n := nat_of_ascii c in
  ((n =? 9) || (n =? 10) || (n =? 11) || (n =? 12) || (n =? 13) || (n =? 32))%nat.

(** U+00A0, as the two bytes C2 A0. *)
Definition is_ws2 (c1 c2 : ascii) : bool :=
  ((nat_of_ascii c1 =? 194) && (nat_of_ascii c2 =? 160))%nat.

(** The three-byte ones: U+1680 (E1 9A 80), U+2000 to U+200A (E2 80 80 to
    8A), U+2028 and U+2029 (E2 80 A8, A9), U+202F (E2 80 AF), U+205F
    (E2 81 9F), U+3000 (E3 80 80) and U+FEFF (EF BB BF). *)
Definition is_ws3 (c1 c2 c3 : ascii) : bool :=
  let a := nat_of_ascii c1 in
  let b := nat_of_ascii c2 in
  let c := nat_of_ascii c3 in
  ((a =? 225) && (b =? 154) && (c =? 128)
   || (a =? 226) && (b =? 128)
      && ((128 <=? c) && (c <=? 138) || (c =? 168) || (c =? 169) || (c =? 175))
   || (a =? 226) && (b =? 129) && (c =? 159)
   || (a =? 227) && (b =? 128) && (c =? 128)
   || (a =? 239) && (b =? 187) && (c =? 191))%nat.

Fixpoint trim_left (s : string) : string :=
  match s with
  | String c1 r1 =>
      if is_ws c1 then trim_left r1
      else
        match r1 with
        | String c2 r2 =>
            if is_ws2 c1 c2 then trim_left r2
            else
              match r2 with
              | String c3 r3 => if is_ws3 c1 c2 c3 then trim_left r3 else s
              | EmptyString => s
              end
        | EmptyString => s
        end
  | EmptyString => s
  end.

Definition digit_of (c : ascii) : option N :=
  let n := N_of_ascii c in
  if ((48 <=? n) && (n <=? 57))%N then Some (n - 48)%N else None.

(** Reads the longest run of decimal digits: the number read so far, how
    many digits were read, and the rest of the text. *)
Fixpoint read_digits (s : string) (acc : N) (cnt : nat) : N * nat * string :=
  match s with
  | String c r =>
      match digit_of c with
      | Some d => read_digits r (10 * acc + d)%N (S cnt)
      | None => (acc, cnt, s)
      end
  | EmptyString => (acc, cnt, s)
  end.

Definition read_sign (s : string) : bool * string :=
  match s with
  | String "-" r => (true, r)
  | String "+" r => (false, r)
  | _ => (false, s)
  end.

(** ExponentPart, when a whole one is there; otherwise exponent 0. *)
Definition read_exponent (s : string) : Z :=
  match s with
  | String c r =>
      if (Ascii.eqb c "e" || Ascii.eqb c "E")%bool then
        let '(neg, r1) := read_sign r in
        let '(v, cnt, _) := read_digits r1 0%N 0%nat in
        match cnt with
        | O => 0
        | S _ => if neg then - Z.of_N v else Z.of_N v
        end
      else 0
  | EmptyString => 0
  end.

(** [parseFloat(string)]: leading white space is dropped, then the longest
    prefix that is a StrDecimalLiteral is read; [NaN] when there is none. *)
Definition parseFloat (input : string) : jsnum :=
  let '(neg, s) := read_sign (trim_left input) in
  if String.prefix "Infinity" s then Infinity neg
  else
    let '(ip, ni, r) := read_digits s 0%N 0%nat in
    match r with
    | String "." r1 =>
        let '(m, nf, r2) := read_digits r1 ip 0%nat in
        match ni, nf with
        | O, O => NaN
        | _, _ => Dec neg m (read_exponent r2 - Z.of_nat nf)
        end
    | _ =>
        match ni with
        | O => NaN
        | S _ => Dec neg ip (read_exponent r)
        end
    end.

(** A decimal [m * 10^e] becomes [0] as a double exactly when it is at most
    [2^-1075], half of the least positive double. *)
Definition rounds_to_zero (m : N) (e : Z) : bool :=
  if (m =? 0)%N then true
  else if 0 <=? e then false
  else Z.of_N m * 2 ^ 1075 <=? 10 ^ (- e).

(** ToBoolean of a number: [NaN], [+0] and [-0] are falsy. *)
Definition truthy (n : jsnum) : bool :=
  match n with
  | NaN => false
  | Infinity _ => true
  | Dec _ m e => negb (rounds_to_zero m e)
  end.


Definition numeric (n : jsnum) : bool :=
  match n with
  | NaN => false
  | _ => true
  end.

(** ** JSON values, as [JSON.parse] returns them *)

#[local] Set Warnings "-register-all".

Inductive json :=
| JNull
| JBool (b : bool)
| JNum (n : jsnum)
| JStr (s : string)
| JArr (l : list json)
| JObj (l : list (string * json)).

(** ** The tables of the store (app/models) *)

(** CONSTANTS.HELPERS.CHANGE_LOG_STATUS_CREATED, _UPDATED, _DELETED. *)
Inductive Status := CREATED | UPDATED | DELETED.

Record User := { balance : Z; gcmToken : string }.

Record Task := {
  userId : Z;
  name : string;
  cost : Z;
  refreshRate : string;
  expiresAt : string;
  answersLeft : Z
}.

Record Location := {
  loc_taskId : Z;
  loc_name : string;
  loc_lat : string;
  loc_lng : string;
  loc_radius : string
}.

Record TaskAction := {
  ta_id : Z;
  ta_taskId : Z;
  ta_description : string;
  ta_type : string
}.

Record TaskResponse := {
  tr_id : Z;
  tr_userId : Z;
  tr_taskId : Z;
  tr_createdAt : Z
}.

(** The value of a member expression [o[id]] on parsed values, for an [o]
    that is not null.  The handler hands it to the store as it is; which
    value the runtime finds there (the key [id] converts to, own
    properties, indices, the prototype chain) is not looked into. *)
Record Member := {
  member_of : json;
  member_key : json
}.

Record TaskActionResponse := {
  tar_userId : Z;
  tar_response : Member;
  tar_taskactionId : json;
  tar_taskresponseId : Z
}.

Record ChangeLog := {
  cl_taskId : Z;
  cl_status : Status;
  cl_createdAt : Z
}.

(** The store: users and tasks by primary key, the other tables in
    insertion order, the counters of the auto-increment keys, and the
    clock that stamps [createdAt]. *)
Record DB := {
  users : gmap Z User;
  tasks : gmap Z Task;
  locations : list Location;
  taskactions : list TaskAction;
  taskresponses : list TaskResponse;
  taskactionresponses : list TaskActionResponse;
  changelogs : list ChangeLog;
  next_task_id : Z;
  next_action_id : Z;
  next_response_id : Z;
  now : Z
}.

(** ** Requests *)

(** The body of POST /db/task-add, the required parameters as they arrive. *)
Record TaskAddBody := {
  req_userId : string;
  req_taskName : string;
  req_cost : string;
  req_expiresAt : string;
  req_refreshRate : string;
  req_answersLeft : string;
  req_locationName : string;
  req_lat : string;
  req_lng : string;
  req_radius : string;
  req_taskActions : list (string * string)
}.

(** The body of POST /db/task-respond; [taskId] is taken as a key already. *)
Record TaskRespondBody := {
  req_taskId : Z;
  req_responses : string;
  req_taskActionIds : string
}.

(** ** Instances handed back by the store *)

(** [req.user], and [task.user]: a row of [users] read at some moment. *)
Record UserInstance := {
  ui_id : Z;
  ui_balance : Z;
  ui_gcmToken : string
}.

(** What [Task.findOne] with [include: [User, TaskResponse]] returns. *)
Record TaskInstance := {
  ti_id : Z;
  ti_row : Task;
  ti_user : option UserInstance;
  ti_taskresponses : list TaskResponse
}.

(** What [Task.findAll] with [include: [Location, TaskResponse, TaskAction]]
    returns for one task. *)
Record TaskAggregate := {
  agg_id : Z;
  agg_row : Task;
  agg_location : list Location;
  agg_taskresponses : list TaskResponse;
  agg_taskactions : list TaskAction
}.

(** What [Task.create] with [include: [TaskAction, Location]] returns. *)
Record CreatedTask := {
  ct_id : Z;
  ct_name : string;
  ct_taskactions : list TaskAction
}.

(** ** What the controller takes from outside this file

    [JSON.parse] of the runtime ([None]: it throws SyntaxError), the
    instance method [task.acceptingNewResponses] of the Task model
    ([Some message]: the callback gets an error), the cast a key or
    amount column applies to a request parameter ([None]: the store
    rejects the row), and what the store does to the rows that hang on a
    task when the task row is removed.  The associations and their delete
    rules are declared in the models; all that is taken for granted is
    that removing a task makes rows of the dependent tables go and does
    nothing else. *)
Record drops_rows (db db' : DB) : Prop := {
  drops_users : users db' = users db;
  drops_tasks : tasks db' = tasks db;
  drops_changelogs : changelogs db' = changelogs db;
  drops_next_task_id : next_task_id db' = next_task_id db;
  drops_next_action_id : next_action_id db' = next_action_id db;
  drops_next_response_id : next_response_id db' = next_response_id db;
  drops_now : now db' = now db;
  drops_locations : sublist (locations db') (locations db);
  drops_taskactions : sublist (taskactions db') (taskactions db);
  drops_taskresponses : sublist (taskresponses db') (taskresponses db);
  drops_taskactionresponses :
    sublist (taskactionresponses db') (taskactionresponses db)
}.

Class Platform := {
  JSON_parse : string -> option json;
  acceptingNewResponses : TaskInstance -> option string;
  columnInt : string -> option Z;
  onDelete : Z -> DB -> DB;
  onDelete_drops : forall id db, drops_rows db (onDelete id db)
}.

(** ** Queries *)

Inductive Query : Type -> Type :=
| Task_create (b : TaskAddBody) : Query CreatedTask
| Task_destroy (id : Z) : Query unit
| Task_findAll (ids : json) : Query (list TaskAggregate)
| Task_findOne (id : Z) : Query (option TaskInstance)
| Task_update (id : Z) (answers : Z) : Query unit
| User_update (id : Z) (bal : Z) : Query unit
| ChangeLog_create (taskId : Z) (st : Status) : Query unit
| ChangeLog_findAll_gt (t : Z) : Query (list ChangeLog)
| TaskResponse_create (uid : Z) (taskId : Z) : Query Z
| TaskActionResponse_bulkCreate (rows : list TaskActionResponse) : Query unit.

(** Which queries the store rejects (StorageFailure). *)
Definition Faults := forall R, Query R -> bool.

Definition no_faults : Faults := fun _ _ => false.

(** ** Handlers as trees of queries *)

Inductive Error :=
| Msg (s : string)
| SyntaxError
| StoreError.

Inductive Response :=
| Created (createdTaskId : Z) (createdTaskActions : list TaskAction)
| RedirectIndex
| Tasks (fetchedTasks : list TaskAggregate)
| ChangeLogJson (lastUpdated : Z) (changes : list (Z * Status))
| Responded (bal : Z)
| Failure (e : Error).

(** gcm.sendMessage(payload, destination, callback). *)
Inductive Notification :=
| ToAll (taskName : string)
| ToToken (token : string) (bal : Z) (id : Z).

(** [Do q k] awaits [q]: [k (Some r)] is the [then] branch, [k None] what
    runs after a rejection.  [Fire q k] issues [q] and drops its promise.
    [Send] is [res.json], [res.redirect] or [next(error)], which the
    router's error middleware answers.  [Crash] is an exception thrown in
    a promise callback that no [catch] follows: nothing is sent. *)
Inductive Proc :=
| Halt
| Crash
| Send (r : Response) (k : Proc)
| Notify (n : Notification) (k : Proc)
| Fire {R : Type} (q : Query R) (k : Proc)
| Do {R : Type} (q : Query R) (k : option R -> Proc).

Inductive Event :=
| Sent (r : Response)
| Notified (n : Notification)
| Crashed.

(** The answer the client gets: the first response sent, if any. *)
Fixpoint answer (t : list Event) : option Response :=
  match t with
  | Sent r :: _ => Some r
  | _ :: t' => answer t'
  | [] => None
  end.

Inductive Request :=
| ReqAdd (b : TaskAddBody)
| ReqDelete (taskId : Z)
| ReqFetch (taskId : option string)
| ReqSync (lastUpdated : Z)
| ReqRespond (user : UserInstance) (b : TaskRespondBody).

(** ** The store executes a query *)

(** Setters for the columns the controller updates. *)
Definition set_balance (b : Z) (u : User) : User :=
  {| balance := b; gcmToken := gcmToken u |}.

Definition set_answersLeft (a : Z) (t : Task) : Task :=
  {| userId := userId t; name := name t; cost := cost t;
     refreshRate := refreshRate t; expiresAt := expiresAt t;
     answersLeft := a |}.

Definition with_users (f : gmap Z User -> gmap Z User) (db : DB) : DB :=
  {| users := f (users db); tasks := tasks db; locations := locations db;
     taskactions := taskactions db; taskresponses := taskresponses db;
     taskactionresponses := taskactionresponses db;
     changelogs := changelogs db; next_task_id := next_task_id db;
     next_action_id := next_action_id db;
     next_response_id := next_response_id db; now := now db |}.

Definition with_tasks (f : gmap Z Task -> gmap Z Task) (db : DB) : DB :=
  {| users := users db; tasks := f (tasks db); locations := locations db;
     taskactions := taskactions db; taskresponses := taskresponses db;
     taskactionresponses := taskactionresponses db;
     changelogs := changelogs db; next_task_id := next_task_id db;
     next_action_id := next_action_id db;
     next_response_id := next_response_id db; now := now db |}.

Definition add_changelog (e : ChangeLog) (db : DB) : DB :=
  {| users := users db; tasks := tasks db; locations := locations db;
     taskactions := taskactions db; taskresponses := taskresponses db;
     taskactionresponses := taskactionresponses db;
     changelogs := changelogs db ++ [e]; next_task_id := next_task_id db;
     next_action_id := next_action_id db;
     next_response_id := next_response_id db; now := now db |}.

Definition add_taskresponse (uid taskId : Z) (db : DB) : DB :=
  {| users := users db; tasks := tasks db; locations := locations db;
     taskactions := taskactions db;
     taskresponses := taskresponses db ++
       [{| tr_id := next_response_id db; tr_userId := uid;
           tr_taskId := taskId; tr_createdAt := now db |}];
     taskactionresponses := taskactionresponses db;
     changelogs := changelogs db; next_task_id := next_task_id db;
     next_action_id := next_action_id db;
     next_response_id := next_response_id db + 1; now := now db |}.

Definition add_taskactionresponses (rows : list TaskActionResponse) (db : DB) : DB :=
  {| users := users db; tasks := tasks db; locations := locations db;
     taskactions := taskactions db; taskresponses := taskresponses db;
     taskactionresponses := taskactionresponses db ++ rows;
     changelogs := changelogs db; next_task_id := next_task_id db;
     next_action_id := next_action_id db;
     next_response_id := next_response_id db; now := now db |}.

(** The clock moves on by [d]. *)
Definition tick (d : Z) (db : DB) : DB :=
  {| users := users db; tasks := tasks db; locations := locations db;
     taskactions := taskactions db; taskresponses := taskresponses db;
     taskactionresponses := taskactionresponses db;
     changelogs := changelogs db; next_task_id := next_task_id db;
     next_action_id := next_action_id db;
     next_response_id := next_response_id db; now := now db + d |}.

(** The task actions of a new task get consecutive keys from [from]. *)
Fixpoint number_actions (taskId from : Z) (l : list (string * string)) : list TaskAction :=
  match l with
  | [] => []
  | (d, ty) :: r =>
      {| ta_id := from; ta_taskId := taskId; ta_description := d; ta_type := ty |}
      :: number_actions taskId (from + 1) r
  end.

Definition insert_task (b : TaskAddBody) (uid c a : Z) (db : DB) : DB * CreatedTask :=
  let id := next_task_id db in
  let acts := number_actions id (next_action_id db) (req_taskActions b) in
  ({| users := users db;
      tasks := <[id := {| userId := uid; name := req_taskName b; cost := c;
                          refreshRate := req_refreshRate b;
                          expiresAt := req_expiresAt b; answersLeft := a |}]>
               (tasks db);
      locations := locations db ++
        [{| loc_taskId := id; loc_name := req_locationName b;
            loc_lat := req_lat b; loc_lng := req_lng b;
            loc_radius := req_radius b |}];
      taskactions := taskactions db ++ acts;
      taskresponses := taskresponses db;
      taskactionresponses := taskactionresponses db;
      changelogs := changelogs db;
      next_task_id := id + 1;
      next_action_id := next_action_id db + Z.of_nat (List.length acts);
      next_response_id := next_response_id db;
      now := now db |},
   {| ct_id := id; ct_name := req_taskName b; ct_taskactions := acts |}).

Definition responses_of (taskId : Z) (db : DB) : list TaskResponse :=
  filter (fun r => tr_taskId r = taskId) (taskresponses db).

Definition instance_of_user (id : Z) (u : User) : UserInstance :=
  {| ui_id := id; ui_balance := balance u; ui_gcmToken := gcmToken u |}.

(** [include: [User, {model: TaskResponse, order: '"createdAt" DESC'}]]. *)
Definition instance_of_task (db : DB) (id : Z) (t : Task) : TaskInstance :=
  {| ti_id := id; ti_row := t;
     ti_user := instance_of_user (userId t) <$> users db !! userId t;
     ti_taskresponses := rev (responses_of id db) |}.

Definition aggregate_of_task (db : DB) (id : Z) (t : Task) : TaskAggregate :=
  {| agg_id := id; agg_row := t;
     agg_location := filter (fun l => loc_taskId l = id) (locations db);
     agg_taskresponses := responses_of id db;
     agg_taskactions := filter (fun a => ta_taskId a = id) (taskactions db) |}.

(** Whether the decimal [(-1)^neg * m * 10^e] is the integer [id]. *)
Definition dec_is (neg : bool) (m : N) (e : Z) (id : Z) : bool :=
  let v := if neg then - Z.of_N m else Z.of_N m in
  if 0 <=? e then v * 10 ^ e =? id else v =? id * 10 ^ (- e).

Section Controller.

Context `{Platform}.

(** [where: {id: v}] for one element of a list, or for a bare value. *)
Definition scalar_matches (id : Z) (v : json) : bool :=
  match v with
  | JNum (Dec neg m e) => dec_is neg m e id
  | JStr s => bool_decide (columnInt s = Some id)
  | _ => false
  end.

(** [where: {id: v}]: a list gives [id IN (...)], which no row satisfies
    when the list is empty. *)
Definition where_id (v : json) (id : Z) : bool :=
  match v with
  | JArr l => existsb (scalar_matches id) l
  | _ => scalar_matches id v
  end.

(** Removing the row of task [id]: the rows that hang on it go as the
    models rule, when there is such a task. *)
Definition without_dependents (id : Z) (db : DB) : DB :=
  match tasks db !! id with
  | Some _ => onDelete id db
  | None => db
  end.

(** The effect and the result of a query the store accepts; [None] when
    it rejects the query on its own account. *)
Definition exec {R : Type} (q : Query R) (db : DB) : option (DB * R) :=
  match q in Query R return option (DB * R) with
  | Task_create b =>
      match columnInt (req_userId b), columnInt (req_cost b),
            columnInt (req_answersLeft b) with
      | Some uid, Some c, Some a => Some (insert_task b uid c a db)
      | _, _, _ => None
      end
  | Task_destroy id => Some (with_tasks (delete id) (without_dependents id db), tt)
  | Task_findAll ids =>
      Some (db, (fun p => aggregate_of_task db p.1 p.2) <$>
                  filter (fun p => where_id ids p.1 = true) (map_to_list (tasks db)))
  | Task_findOne id => Some (db, instance_of_task db id <$> tasks db !! id)
  | Task_update id a => Some (with_tasks (alter (set_answersLeft a) id) db, tt)
  | User_update id b => Some (with_users (alter (set_balance b) id) db, tt)
  | ChangeLog_create taskId st =>
      Some (add_changelog {| cl_taskId := taskId; cl_status := st;
                             cl_createdAt := now db |} db, tt)
  | ChangeLog_findAll_gt t =>
      Some (db, filter (fun e => t < cl_createdAt e) (changelogs db))
  | TaskResponse_create uid taskId =>
      Some (add_taskresponse uid taskId db, next_response_id db)
  | TaskActionResponse_bulkCreate rows =>
      Some (add_taskactionresponses rows db, tt)
  end.

(** A query under a fault oracle. *)
Definition perform (f : Faults) {R : Type} (q : Query R) (db : DB) : option (DB * R) :=
  if f R q then None else exec q db.

(** Runs a handler to its end, with no other request in between. *)
Fixpoint run (f : Faults) (p : Proc) (db : DB) : DB * list Event :=
  match p with
  | Halt => (db, [])
  | Crash => (db, [Crashed])
  | Send r k => let '(db', t) := run f k db in (db', Sent r :: t)
  | Notify n k => let '(db', t) := run f k db in (db', Notified n :: t)
  | Fire q k =>
      match perform f q db with
      | Some (db', _) => run f k db'
      | None => run f k db
      end
  | Do q k =>
      match perform f q db with
      | Some (db', r) => run f (k (Some r)) db'
      | None => run f (k None) db
      end
  end.

(** *** createChangeLogPromise *)

Definition createChangeLogPromise (taskId : Z) (st : Status) : Query unit :=
  ChangeLog_create taskId st.

(** *** POST /db/task-add *)

Definition task_add (b : TaskAddBody) : Proc :=
  if negb (truthy (parseFloat (req_cost b))) then
    Send (Failure (Msg "Cost must be a number (in dollars).")) Halt
  else if negb (truthy (parseFloat (req_lat b)))
          || negb (truthy (parseFloat (req_lng b))) then
    Send (Failure (Msg "Lat and Lng must both be numbers.")) Halt
  else
    Do (Task_create b) (fun created =>
      match created with
      | None =>
          (* catch: next(error); the following then reads
             createdTask.id of undefined *)
          Send (Failure StoreError) Crash
      | Some createdTask =>
          Do (createChangeLogPromise (ct_id createdTask) CREATED) (fun logged =>
            match logged with
            | None => Send (Failure StoreError) Halt
            | Some _ =>
                Notify (ToAll (ct_name createdTask))
                  (Send (Created (ct_id createdTask) (ct_taskactions createdTask)) Halt)
            end)
      end).

(** *** GET /db/task-delete/:taskId

    [createChangeLogPromise(...)] is evaluated as the argument of [then]:
    the insert is issued right behind the delete, whatever becomes of
    it, and [then] ignores the promise it is handed. *)
Definition task_delete (taskId : Z) : Proc :=
  Do (Task_destroy taskId) (fun destroyed =>
    Fire (createChangeLogPromise taskId DELETED)
      match destroyed with
      | Some _ => Send RedirectIndex Halt
      | None => Send (Failure StoreError) Halt
      end).

(** *** GET /db/task-fetch *)

Definition requestedFetchTaskIds (taskId : option string) : json :=
  match taskId with
  | None => JArr []
  | Some EmptyString => JArr []
  | Some s =>
      match JSON_parse s with
      | Some v => v
      | None => JArr []
      end
  end.

Definition task_fetch (taskId : option string) : Proc :=
  Do (Task_findAll (requestedFetchTaskIds taskId)) (fun found =>
    match found with
    | Some fetchedTasks => Send (Tasks fetchedTasks) Halt
    | None => Send (Failure StoreError) Halt
    end).

(** *** GET /db/task-sync *)

Definition changeLog (allChanges : list ChangeLog) : Response :=
  match last allChanges with
  | Some l =>
      ChangeLogJson (cl_createdAt l)
        (map (fun changeObj => (cl_taskId changeObj, cl_status changeObj)) allChanges)
  | None => ChangeLogJson 0 []
  end.

Definition task_sync (lastUpdated : Z) : Proc :=
  Do (ChangeLog_findAll_gt lastUpdated) (fun found =>
    match found with
    | Some allChanges => Send (changeLog allChanges) Halt
    | None => Send (Failure StoreError) Halt
    end).

(** *** POST /db/task-respond *)

(** The rows handed to [bulkCreate]; [None] when building them throws:
    for a first id, [taskActionResponses[id]] of null or
    [createdTaskResponse.id] of undefined. *)
Definition response_rows (user : UserInstance) (taskActionResponses : json)
    (createdTaskResponse : option Z) (ids : list json) : option (list TaskActionResponse) :=
  match ids with
  | [] => Some []
  | _ :: _ =>
      match taskActionResponses, createdTaskResponse with
      | JNull, _ => None
      | _, None => None
      | _, Some rid =>
          Some (map (fun id =>
                  {| tar_userId := ui_id user;
                     tar_response := {| member_of := taskActionResponses;
                                        member_key := id |};
                     tar_taskactionId := id;
                     tar_taskresponseId := rid |}) ids)
      end
  end.

(** The second [then] of the handler, which also runs after the [catch]
    of a rejected [TaskResponse.create], then with no created row. *)
Definition record_responses (user : UserInstance) (task : TaskInstance)
    (owner_balance : Z) (owner_token : string) (new_balance : Z) (taskId : Z)
    (taskActionResponses taskActionIdArray : json)
    (createdTaskResponse : option Z) : Proc :=
  match taskActionIdArray with
  | JArr ids =>
      match response_rows user taskActionResponses createdTaskResponse ids with
      | None => Crash
      | Some rows =>
          Do (TaskActionResponse_bulkCreate rows) (fun created =>
            match created with
            | None => Send (Failure StoreError) Halt
            | Some _ =>
                Do (createChangeLogPromise taskId UPDATED) (fun logged =>
                  match logged with
                  | None => Crash
                  | Some _ =>
                      Notify (ToToken owner_token owner_balance (ti_id task))
                        (Send (Responded new_balance) Halt)
                  end)
            end)
      end
  | _ => Crash  (* taskActionIdArray.map is not a function *)
  end.

(** The callback of [task.acceptingNewResponses], when it gets no error:
    three updates are issued and not awaited, then the response row is
    created. *)
Definition accept_response (user : UserInstance) (taskId : Z)
    (taskActionResponses taskActionIdArray : json)
    (task : TaskInstance) (owner : UserInstance) : Proc :=
  let c := cost (ti_row task) in
  Fire (User_update (ui_id owner) (ui_balance owner - c))
  (Fire (User_update (ui_id user) (ui_balance user + c))
  (Fire (Task_update (ti_id task) (answersLeft (ti_row task) - 1))
  (Do (TaskResponse_create (ui_id user) taskId) (fun created =>
     let rest :=
       record_responses user task (ui_balance owner - c) (ui_gcmToken owner)
         (ui_balance user + c) taskId taskActionResponses taskActionIdArray
         created in
     match created with
     | None => Send (Failure StoreError) rest
     | Some _ => rest
     end)))).

(** The first [then] of the handler, on what [Task.findOne] gave. *)
Definition respond_found (user : UserInstance) (taskId : Z)
    (taskActionResponses taskActionIdArray : json)
    (found : option (option TaskInstance)) : Proc :=
  match found with
  | None => Crash       (* rejected: this chain has no catch *)
  | Some None => Crash  (* task is null: task.answersLeft throws *)
  | Some (Some task) =>
      if answersLeft (ti_row task) =? 0 then
        Send (Failure (Msg "Task is already completed.")) Halt
      else
        match acceptingNewResponses task with
        | Some error => Send (Failure (Msg error)) Halt
        | None =>
            match ti_user task with
            | None => Crash  (* task.user is null *)
            | Some owner =>
                accept_response user taskId taskActionResponses
                  taskActionIdArray task owner
            end
        end
  end.

Definition task_respond (user : UserInstance) (b : TaskRespondBody) : Proc :=
  let taskId := req_taskId b in
  match JSON_parse (req_responses b) with
  | None => Send (Failure SyntaxError) Halt
  | Some taskActionResponses =>
      match JSON_parse (req_taskActionIds b) with
      | None => Send (Failure SyntaxError) Halt
      | Some taskActionIdArray =>
          Do (Task_findOne taskId)
             (respond_found user taskId taskActionResponses taskActionIdArray)
      end
  end.

(** *** The router *)

Definition handler (r : Request) : Proc :=
  match r with
  | ReqAdd b => task_add b
  | ReqDelete taskId => task_delete taskId
  | ReqFetch taskId => task_fetch taskId
  | ReqSync lastUpdated => task_sync lastUpdated
  | ReqRespond user b => task_respond user b
  end.

(** ** Requests one after the other *)

Inductive Op :=
| Call (f : Faults) (r : Request)
| Tick (d : Z).

Definition apply_op (o : Op) (db : DB) : DB :=
  match o with
  | Call f r => (run f (handler r) db).1
  | Tick d => tick (Z.max 0 d) db
  end.

Definition apply_ops (ops : list Op) (db : DB) : DB :=
  foldl (fun d o => apply_op o d) db ops.

(** ** Two requests at once

    One step of a handler: what it sends up to its next query, and that
    query.  A schedule says which of two handlers takes the next step. *)
Definition step (f : Faults) (p : Proc) (db : DB) : DB * Proc * list Event :=
  match p with
  | Halt => (db, Halt, [])
  | Crash => (db, Halt, [Crashed])
  | Send r k => (db, k, [Sent r])
  | Notify n k => (db, k, [Notified n])
  | Fire q k =>
      match perform f q db with
      | Some (db', _) => (db', k, [])
      | None => (db, k, [])
      end
  | Do q k =>
      match perform f q db with
      | Some (db', r) => (db', k (Some r), [])
      | None => (db, k None, [])
      end
  end.

Fixpoint run_two (f : Faults) (sched : list bool) (p1 p2 : Proc) (db : DB)
    : DB * list Event * list Event :=
  match sched with
  | [] =>
      let '(db1, t1) := run f p1 db in
      let '(db2, t2) := run f p2 db1 in
      (db2, t1, t2)
  | true :: s =>
      let '(db', p1', e) := step f p1 db in
      let '(db'', t1, t2) := run_two f s p1' p2 db' in
      (db'', e ++ t1, t2)
  | false :: s =>
      let '(db', p2', e) := step f p2 db in
      let '(db'', t1, t2) := run_two f s p1 p2' db' in
      (db'', t1, e ++ t2)
  end.

End Controller.

(** ** A platform to run the controller on

    A reader for JSON texts, a strict integer cast for the columns, a Task
    model whose [acceptingNewResponses] looks at the counter only, and a
    store in which the response rows of a task go with the task. *)

Definition is_json_ws (c : ascii) : bool :=
  let n := nat_of_ascii c in
  ((n =? 9) || (n =? 10) || (n =? 13) || (n =? 32))%nat.

Fixpoint skip_ws (s : string) : string :=
  match s with
  | String c r => if is_json_ws c then skip_ws r else s
  | EmptyString => s
  end.

Fixpoint strip (p s : string) : option string :=
  match p, s with
  | EmptyString, _ => Some s
  | String a p', String b s' => if Ascii.eqb a b then strip p' s' else None
  | String _ _, EmptyString => None
  end.

Definition hex_of (c : ascii) : option N :=
  let n := N_of_ascii c in
  if ((48 <=? n) && (n <=? 57))%N then Some (n - 48)%N
  else if ((65 <=? n) && (n <=? 70))%N then Some (n - 55)%N
  else if ((97 <=? n) && (n <=? 102))%N then Some (n - 87)%N
  else None.

(** The four hexadecimal digits of a [\u] escape. *)
Definition read_hex4 (s : string) : option (N * string) :=
  match s with
  | String a (String b (String c (String d r))) =>
      h1 ← hex_of a; h2 ← hex_of b; h3 ← hex_of c; h4 ← hex_of d;
      Some (((h1 * 16 + h2) * 16 + h3) * 16 + h4, r)%N
  | _ => None
  end.

(** The bytes of a code point; half of a surrogate pair that stands alone
    is written like any other code point of three bytes. *)
Definition utf8 (cp : N) : string :=
  let byte n := ascii_of_N n in
  (if cp <? 128 then String (byte cp) EmptyString
   else if cp <? 2048 then
     String (byte (192 + cp / 64)) (String (byte (128 + cp mod 64)) EmptyString)
   else if cp <? 65536 then
     String (byte (224 + cp / 4096))
       (String (byte (128 + (cp / 64) mod 64))
          (String (byte (128 + cp mod 64)) EmptyString))
   else
     String (byte (240 + cp / 262144))
       (String (byte (128 + (cp / 4096) mod 64))
          (String (byte (128 + (cp / 64) mod 64))
             (String (byte (128 + cp mod 64)) EmptyString))))%N.

(** A [\u] escape, its digits read: two escapes that make a surrogate pair
    are one code point. *)
Definition read_unit (u : N) (r : string) : string * string :=
  let alone := (utf8 u, r) in
  if ((55296 <=? u) && (u <=? 56319))%N then
    match r with
    | String "\" (String "u" r1) =>
        match read_hex4 r1 with
        | Some (v, r2) =>
            if ((56320 <=? v) && (v <=? 57343))%N
            then (utf8 (65536 + (u - 55296) * 1024 + (v - 56320))%N, r2)
            else alone
        | None => alone
        end
    | _ => alone
    end
  else alone.

(** The characters of a string up to the closing quote. *)
Fixpoint read_chars (fuel : nat) (s : string) : option (string * string) :=
  match fuel, s with
  | O, _ | _, EmptyString => None
  | S fuel', String c r =>
      if Ascii.eqb c "034" then Some (EmptyString, r)
      else if (nat_of_ascii c <? 32)%nat then None
      else if Ascii.eqb c "\" then
        match r with
        | String e r1 =>
            let plain (n : N) :=
              '(v, r') ← read_chars fuel' r1; Some (String (ascii_of_N n) v, r') in
            if Ascii.eqb e "034" then plain 34%N
            else if Ascii.eqb e "\" then plain 92%N
            else if Ascii.eqb e "/" then plain 47%N
            else if Ascii.eqb e "b" then plain 8%N
            else if Ascii.eqb e "f" then plain 12%N
            else if Ascii.eqb e "n" then plain 10%N
            else if Ascii.eqb e "r" then plain 13%N
            else if Ascii.eqb e "t" then plain 9%N
            else if Ascii.eqb e "u" then
              '(u, r2) ← read_hex4 r1;
              let '(bytes, r3) := read_unit u r2 in
              '(v, r') ← read_chars fuel' r3; Some (String.append bytes v, r')
            else None
        | EmptyString => None
        end
      else '(v, r') ← read_chars fuel' r; Some (String c v, r')
  end.

(** The double nearest to the decimal [m * 10^e], ties to the even one,
    written as a decimal again: a whole number as [Dec _ n 0], any other
    as [Dec _ n e] with [e < 0] and [n] not a multiple of ten. *)
Definition to_double (neg : bool) (m : N) (e : Z) : jsnum :=
  if (m =? 0)%N then Dec neg 0 0
  else if 310 <? e then Infinity neg
  else if e <? - (332 + Z.log2 (Z.of_N m)) then Dec neg 0 0
  else
    let a := if 0 <=? e then Z.of_N m * 10 ^ e else Z.of_N m in
    let b := if 0 <=? e then 1 else 10 ^ (- e) in
    let k0 := Z.log2 a - Z.log2 b in
    let le := if 0 <=? k0 then b * 2 ^ k0 <=? a else b <=? a * 2 ^ (- k0) in
    let k := if le then k0 else k0 - 1 in
    let p := Z.max (k - 52) (-1074) in
    let num := if 0 <=? p then a else a * 2 ^ (- p) in
    let den := if 0 <=? p then b * 2 ^ p else b in
    let q := num / den in
    let r := num mod den in
    let n :=
      if 2 * r <? den then q
      else if den <? 2 * r then q + 1
      else if Z.even q then q else q + 1 in
    if n =? 0 then Dec neg 0 0
    else if 0 <=? p then
      if 2 ^ 1024 <=? n * 2 ^ p then Infinity neg
      else Dec neg (Z.to_N (n * 2 ^ p)) 0
    else
      let t := Z.min (- p) (Z.log2 (Z.land n (- n))) in
      Dec neg (Z.to_N (Z.shiftr n t * 5 ^ (- (p + t)))) (p + t).

(** JSON number: -? int frac? exp?, with no superfluous leading zero. *)
Definition read_number (s : string) : option (jsnum * string) :=
  let '(neg, s1) := match s with String "-" r => (true, r) | _ => (false, s) end in
  let '(ip, ni, r) := read_digits s1 0%N 0%nat in
  let leading_zero :=
    match s1 with String "0" _ => (1 <? ni)%nat | _ => false end in
  if ((ni =? 0)%nat || leading_zero)%bool then None
  else
    let frac :=
      match r with
      | String "." r1 =>
          let '(m, nf, r2) := read_digits r1 ip 0%nat in
          match nf with O => None | S _ => Some (m, nf, r2) end
      | _ => Some (ip, 0%nat, r)
      end in
    match frac with
    | None => None
    | Some (m, nf, r2) =>
        match r2 with
        | String c r3 =>
            if (Ascii.eqb c "e" || Ascii.eqb c "E")%bool then
              let '(eneg, r4) := read_sign r3 in
              let '(v, cnt, r5) := read_digits r4 0%N 0%nat in
              match cnt with
              | O => None
              | S _ =>
                  Some (to_double neg m ((if eneg then - Z.of_N v else Z.of_N v)
                                         - Z.of_nat nf), r5)
              end
            else Some (to_double neg m (- Z.of_nat nf), r2)
        | EmptyString => Some (to_double neg m (- Z.of_nat nf), r2)
        end
    end.

(** A member read: it takes the place of an earlier one of the same key,
    or else comes last. *)
Fixpoint put (k : string) (v : json) (l : list (string * json)) : list (string * json) :=
  match l with
  | [] => [(k, v)]
  | (k', v') :: r => if String.eqb k k' then (k, v) :: r else (k', v') :: put k v r
  end.

Fixpoint read_value (fuel : nat) (s : string) : option (json * string) :=
  match fuel with
  | O => None
  | S fuel' =>
      match skip_ws s with
      | String "n" r => r' ← strip "ull" r; Some (JNull, r')
      | String "t" r => r' ← strip "rue" r; Some (JBool true, r')
      | String "f" r => r' ← strip "alse" r; Some (JBool false, r')
      | String "034"%char r =>
          '(v, r') ← read_chars (String.length r) r; Some (JStr v, r')
      | String "[" r =>
          match skip_ws r with
          | String "]" r' => Some (JArr [], r')
          | _ => '(l, r') ← read_elements fuel' r []; Some (JArr l, r')
          end
      | String "{" r =>
          match skip_ws r with
          | String "}" r' => Some (JObj [], r')
          | _ => '(l, r') ← read_members fuel' r []; Some (JObj l, r')
          end
      | s' => '(n, r') ← read_number s'; Some (JNum n, r')
      end
  end
with read_elements (fuel : nat) (s : string) (acc : list json)
    : option (list json * string) :=
  match fuel with
  | O => None
  | S fuel' =>
      '(v, r) ← read_value fuel' s;
      match skip_ws r with
      | String "," r' => read_elements fuel' r' (v :: acc)
      | String "]" r' => Some (rev (v :: acc), r')
      | _ => None
      end
  end
with read_members (fuel : nat) (s : string) (acc : list (string * json))
    : option (list (string * json) * string) :=
  match fuel with
  | O => None
  | S fuel' =>
      match skip_ws s with
      | String "034"%char r =>
          '(k, r1) ← read_chars (String.length r) r;
          match skip_ws r1 with
          | String ":" r2 =>
              '(v, r3) ← read_value fuel' r2;
              match skip_ws r3 with
              | String "," r' => read_members fuel' r' (put k v acc)
              | String "}" r' => Some (put k v acc, r')
              | _ => None
              end
          | _ => None
          end
      | _ => None
      end
  end.

(** The whole text must be one value.  The members of an object are kept
    in the order of the text; the order in which the runtime lists them
    is not used. *)
Definition json_read (s : string) : option json :=
  '(v, r) ← read_value (2 * String.length s + 2) s;
  match skip_ws r with
  | EmptyString => Some v
  | _ => None
  end.

(** An optional minus sign and decimal digits, nothing else. *)
Definition int_literal (s : string) : option Z :=
  let '(neg, s1) := match s with String "-" r => (true, r) | _ => (false, s) end in
  let '(v, cnt, r) := read_digits s1 0%N 0%nat in
  match cnt, r with
  | S _, EmptyString => Some (if neg then - Z.of_N v else Z.of_N v)
  | _, _ => None
  end.

(** Modelled from the spec: the Task model of app/models is not part of
    the sources at hand; section 4.3 has the quota gate refuse with
    TaskExhausted exactly when [answersLeft] is 0 at decision time. *)
Definition quota_gate (task : TaskInstance) : option string :=
  if answersLeft (ti_row task) =? 0 then Some "TaskExhausted"%string else None.

(** Removing a task removes its response rows and leaves the other tables
    alone. *)
Definition drop_responses (id : Z) (db : DB) : DB :=
  {| users := users db;
     tasks := tasks db;
     locations := locations db;
     taskactions := taskactions db;
     taskresponses := filter (fun r => tr_taskId r <> id) (taskresponses db);
     taskactionresponses := taskactionresponses db;
     changelogs := changelogs db;
     next_task_id := next_task_id db;
     next_action_id := next_action_id db;
     next_response_id := next_response_id db;
     now := now db |}.

Definition node : Platform :=
  {| JSON_parse := json_read;
     acceptingNewResponses := quota_gate;
     columnInt := int_literal;
     onDelete := drop_responses;
     onDelete_drops := fun id db =>
       Build_drops_rows db (drop_responses id db)
         eq_refl eq_refl eq_refl eq_refl eq_refl eq_refl eq_refl
         (reflexivity _) (reflexivity _) (sublist_filter _ _) (reflexivity _) |}.

(** ** A small store for the examples

    User 1 owns task 1 (cost 5); users 2 and 3 answer.  In [store1] the
    task has one answer left. *)

Definition user_row (b : Z) (token : string) : User :=
  {| balance := b; gcmToken := token |}.

Definition store_with (answers : Z) : DB :=
  {| users := <[1 := user_row 100 "owner"]>
                (<[2 := user_row 10 "ann"]> (<[3 := user_row 0 "bob"]> ∅));
     tasks := <[1 := {| userId := 1; name := "count the cars"; cost := 5;
                       refreshRate := "60"; expiresAt := "1467000000000";
                       answersLeft := answers |}]> ∅;
     locations := []; taskactions := []; taskresponses := [];
     taskactionresponses := []; changelogs := [];
     next_task_id := 2; next_action_id := 1; next_response_id := 1;
     now := 1000 |}.

Definition store1 : DB := store_with 1.

Definition ann : UserInstance := instance_of_user 2 (user_row 10 "ann").
Definition bob : UserInstance := instance_of_user 3 (user_row 0 "bob").

Definition respond1 : TaskRespondBody :=
  {| req_taskId := 1; req_responses := "{}"; req_taskActionIds := "[]" |}.

Definition add_body (c answers la lo : string) : TaskAddBody :=
  {| req_userId := "1"; req_taskName := "count the bikes"; req_cost := c;
     req_expiresAt := "1467000000000"; req_refreshRate := "60";
     req_answersLeft := answers; req_locationName := "bridge";
     req_lat := la; req_lng := lo; req_radius := "50";
     req_taskActions := [("how many?", "number")] |}.

(** Oracles that reject one kind of query. *)
Definition fail_response_create : Faults :=
  fun _ q => match q with TaskResponse_create _ _ => true | _ => false end.

Definition fail_destroy : Faults :=
  fun _ q => match q with Task_destroy _ => true | _ => false end.

(** ** Invariants of the store *)

(** The change log is in ascending order of [createdAt], and no entry is
    stamped later than the clock. *)
Definition log_ordered (db : DB) : Prop :=
  Sorted Z.le (cl_createdAt <$> changelogs db) /\
  Forall (fun e => cl_createdAt e <= now db) (changelogs db).

(** Keys of [tasks] are below the auto-increment counter. *)
Definition keys_fresh (db : DB) : Prop :=
  map_Forall (fun id _ => id < next_task_id db) (tasks db).

(** The entries a sync from [since] reports. *)
Definition newer_than (since : Z) (db : DB) : list ChangeLog :=
  filter (fun e => since < cl_createdAt e) (changelogs db).

(** The store after task 1 was deleted from [store1]. *)
Definition store2 : DB := (@run node no_faults (task_delete 1) store1).1.


(** What one request can do to the tasks: nothing, insert a task under
    the next key, delete a task, or take one from the counter of a task
    whose counter is not 0. *)
Inductive tasks_change (db db' : DB) : Prop :=
| tasks_same :
    tasks db' = tasks db -> next_task_id db' = next_task_id db ->
    tasks_change db db'
| tasks_inserted (t : Task) :
    tasks db' = <[next_task_id db := t]> (tasks db) ->
    next_task_id db' = next_task_id db + 1 ->
    tasks_change db db'
| tasks_deleted (id : Z) :
    tasks db' = delete id (tasks db) -> next_task_id db' = next_task_id db ->
    tasks_change db db'
| tasks_decremented (id : Z) (t : Task) :
    tasks db !! id = Some t -> answersLeft t <> 0 ->
    tasks db' = alter (set_answersLeft (answersLeft t - 1)) id (tasks db) ->
    next_task_id db' = next_task_id db ->
    tasks_change db db'.

(** ** GET /db/response-fetch

    The handler only reads: [TaskResponse.findAll] with
    [include: [User, TaskActionResponse]], then one answer.  Its [then]
    follows its [catch], so after a rejected query the error is sent and
    the callback then reads [fetchedResponses.length] of undefined. *)






(** ** More invariants *)

(** The change log of [db'] is that of [db] with entries added at its
    end, each stamped between the two clocks. *)
Definition log_extends (db db' : DB) : Prop :=
  now db <= now db' /\
  exists added,
    changelogs db' = changelogs db ++ added /\
    Forall (fun e => now db <= cl_createdAt e <= now db') added.


Definition counters_nonneg (db : DB) : Prop :=
  map_Forall (fun _ t => 0 <= answersLeft t) (tasks db).

(** The list of ids [[z1, z2, ...]] as [JSON.parse] returns it. *)
Definition json_int (z : Z) : json := JNum (Dec (z <? 0) (Z.abs_N z) 0).

Definition json_ids (l : list Z) : json := JArr (json_int <$> l).



Definition fail_changelog : Faults :=
  fun _ q => match q with ChangeLog_create _ _ => true | _ => false end.

(** A query that writes no negative counter, a reply that shows none, and
    a handler all of whose queries are such, as long as the replies it
    got were. *)
Definition query_nonneg `{Platform} {R : Type} (q : Query R) : Prop :=
  match q with
  | Task_update _ a => 0 <= a
  | Task_create b => forall a, columnInt (req_answersLeft b) = Some a -> 0 <= a
  | _ => True
  end.

Definition reply_nonneg {R : Type} (q : Query R) : R -> Prop :=
  match q in Query R return R -> Prop with
  | Task_findOne _ =>
      fun found => forall task, found = Some task -> 0 <= answersLeft (ti_row task)
  | _ => fun _ => True
  end.

Fixpoint proc_nonneg `{Platform} (p : Proc) : Prop :=
  match p with
  | Halt | Crash => True
  | Send _ k | Notify _ k => proc_nonneg k
  | Fire q k => query_nonneg q /\ proc_nonneg k
  | Do q k =>
      query_nonneg q /\ proc_nonneg (k None) /\
      forall r, reply_nonneg q r -> proc_nonneg (k (Some r))
  end.

Definition request_nonneg `{Platform} (r : Request) : Prop :=
  match r with
  | ReqAdd b => forall a, columnInt (req_answersLeft b) = Some a -> 0 <= a
  | _ => True
  end.



Definition respond3 : TaskRespondBody :=
  {| req_taskId := 1; req_responses := "{}"; req_taskActionIds := "7" |}.

Definition seven : json := JNum (Dec false 7 0).


(** ** Two accepted responses under way

    What the theorem on two responses at once keeps track of. *)











(** * Properties *)

(** What removing a task row leaves alone. *)
Lemma without_dependents_drops `{Platform} (id : Z) (db : DB) :
  drops_rows db (without_dependents id db).
Proof.
  unfold without_dependents. destruct (tasks db !! id).
  - apply onDelete_drops.
  - by constructor.
Qed.

Ltac use_drops :=
  match goal with
  | |- context [without_dependents ?id ?db] =>
      let D := fresh "D" in
      pose proof (without_dependents_drops id db) as D;
      generalize dependent (without_dependents id db); intros ? D;
      destruct D as [?Du ?Dt ?Dc ?Dn1 ?Dn2 ?Dn3 ?Dnow ?Dl ?Da ?Dr ?Dar]
  end.

Section Properties.

Context `{Platform}.

(** ** Fetching *)

Lemma filter_none {A} (P : A -> Prop) `{!forall x, Decision (P x)} (l : list A) :
  (forall x, ~ P x) -> filter P l = [].
Proof.
  intros HP. induction l as [|x l IH]; [done|].
  rewrite filter_cons. destruct (decide (P x)); [by destruct (HP x)|done].
Qed.

Lemma filter_none_in {A} (P : A -> Prop) `{!forall x, Decision (P x)} (l : list A) :
  (forall x, x ∈ l -> ~ P x) -> filter P l = [].
Proof.
  intros HP. induction l as [|x l IH]; [done|].
  rewrite filter_cons. destruct (decide (P x)) as [Hx|_].
  - destruct (HP x); [left|done].
  - apply IH. intros y Hy. apply HP. by right.
Qed.

Lemma requestedFetchTaskIds_default taskId :
  taskId = None \/ (exists s, taskId = Some s /\ JSON_parse s = None) ->
  requestedFetchTaskIds taskId = JArr [].
Proof.
  intros [->|(s & -> & Hs)]; [done|].
  unfold requestedFetchTaskIds. destruct s; [done|]. by rewrite Hs.
Qed.

(** C10: a fetch whose taskId parameter is absent, or is not JSON, asks
    the store for the empty list of ids and answers with the empty list
    of tasks, not with an error. *)
Theorem fetch_without_ids_is_empty (db : DB) (taskId : option string) :
  taskId = None \/ (exists s, taskId = Some s /\ JSON_parse s = None) ->
  requestedFetchTaskIds taskId = JArr [] /\
  run no_faults (task_fetch taskId) db = (db, [Sent (Tasks [])]).
Proof.
  intros Hid. apply requestedFetchTaskIds_default in Hid as Hreq.
  split; [done|]. unfold task_fetch. rewrite Hreq. cbn.
  rewrite filter_none; [done|]. intros [id t]. cbn. discriminate.
Qed.

(** ** Validation of a new task *)



(** ** Deleting *)

Lemma with_tasks_delete_missing (db : DB) (taskId : Z) :
  tasks db !! taskId = None -> with_tasks (delete taskId) db = db.
Proof.
  intros Hnone. destruct db. unfold with_tasks. cbn in *.
  by rewrite delete_id.
Qed.

(** C7, as the code has it: deleting a task that does not exist is
    answered with the redirect and leaves the tasks as they are, but the
    change log gets a DELETED entry for that id. *)
Theorem delete_missing_task (db : DB) (taskId : Z) :
  tasks db !! taskId = None ->
  run no_faults (task_delete taskId) db =
    (add_changelog {| cl_taskId := taskId; cl_status := DELETED;
                      cl_createdAt := now db |} db,
     [Sent RedirectIndex]) /\
  tasks (run no_faults (task_delete taskId) db).1 = tasks db /\
  changelogs (run no_faults (task_delete taskId) db).1 =
    changelogs db ++ [{| cl_taskId := taskId; cl_status := DELETED;
                         cl_createdAt := now db |}].
Proof.
  intros Hnone. cbn. unfold without_dependents.
  rewrite Hnone, with_tasks_delete_missing by done.
  by rewrite delete_id.
Qed.

(** ** Responding to a task that is not there *)

Lemma respond_missing_task (f : Faults) (db : DB) (user : UserInstance) (b : TaskRespondBody) :
  tasks db !! req_taskId b = None ->
  (run f (task_respond user b) db).1 = db /\
  (forall e, In (Sent (Failure e)) (run f (task_respond user b) db).2 ->
             e = SyntaxError).
Proof.
  intros Hnone. unfold task_respond.
  destruct (JSON_parse (req_responses b)); cbn.
  2:{ split; [done|]. intros e [[= <-]|[]]. done. }
  destruct (JSON_parse (req_taskActionIds b)); cbn.
  2:{ split; [done|]. intros e [[= <-]|[]]. done. }
  unfold perform. destruct (f _ _); cbn.
  - split; [done|]. intros e [[=]|[]].
  - rewrite Hnone. cbn. split; [done|]. intros e [[=]|[]].
Qed.

(** ** The change log stays ordered *)

Lemma Sorted_snoc (l : list Z) (x : Z) :
  Sorted Z.le l -> Forall (fun y => y <= x) l -> Sorted Z.le (l ++ [x]).
Proof.
  induction 1 as [|y l Hs IH Hhd]; intros Hall; cbn.
  - repeat constructor.
  - apply Forall_cons in Hall as [Hy Hall]. constructor; [by apply IH|].
    destruct Hhd; cbn; by constructor.
Qed.

Lemma Sorted_le_last (l : list Z) (x y : Z) :
  Sorted Z.le l -> last l = Some y -> x ∈ l -> x <= y.
Proof.
  intros Hs%Sorted_StronglySorted; [|intros ???; lia]. revert x.
  induction Hs as [|z l Hs IH Hall]; intros x Hlast Hin; [done|].
  destruct l as [|z' l'].
  - cbn in Hlast. apply list_elem_of_singleton in Hin. by simplify_eq.
  - rewrite last_cons_cons in Hlast.
    apply elem_of_cons in Hin as [->|Hin]; [|by apply IH].
    rewrite Forall_forall in Hall. transitivity z'.
    + apply Hall. left.
    + apply IH; [done|left].
Qed.

Lemma Sorted_filter (P : ChangeLog -> Prop) `{!forall e, Decision (P e)} (l : list ChangeLog) :
  Sorted Z.le (cl_createdAt <$> l) -> Sorted Z.le (cl_createdAt <$> filter P l).
Proof.
  intros Hs%Sorted_StronglySorted; [|intros ???; lia].
  apply StronglySorted_Sorted.
  induction l as [|e l IH]; [constructor|].
  rewrite fmap_cons in Hs. apply StronglySorted_inv in Hs as [Hs Hall].
  rewrite filter_cons. destruct (decide (P e)); [|by apply IH].
  rewrite fmap_cons. constructor; [by apply IH|].
  rewrite Forall_forall in Hall. apply Forall_forall. intros x Hx.
  apply Hall.
  apply list_elem_of_fmap in Hx as (e' & -> & He').
  apply list_elem_of_fmap. exists e'. split; [done|].
  by apply list_elem_of_filter in He' as [_ ?].
Qed.

Lemma exec_log_ordered {R} (q : Query R) (db db' : DB) (r : R) :
  exec q db = Some (db', r) -> log_ordered db -> log_ordered db'.
Proof.
  intros Hexec [Hs Hle]. destruct q; cbn in Hexec;
    try (simplify_eq; by split).
  - repeat case_match; simplify_eq. unfold insert_task in Hexec.
    simplify_eq. by split.
  - simplify_eq. use_drops. split; cbn; by rewrite Dc, ?Dnow.
  - simplify_eq. split; cbn.
    + rewrite fmap_app. cbn. apply Sorted_snoc; [done|].
      by apply Forall_fmap.
    + apply Forall_app. split; [done|]. by repeat constructor.
Qed.

Lemma perform_log_ordered (f : Faults) {R} (q : Query R) (db db' : DB) (r : R) :
  perform f q db = Some (db', r) -> log_ordered db -> log_ordered db'.
Proof.
  unfold perform. destruct (f R q); [done|]. apply exec_log_ordered.
Qed.

Lemma run_log_ordered (f : Faults) (p : Proc) (db : DB) :
  log_ordered db -> log_ordered (run f p db).1.
Proof.
  revert db. induction p as [| |r k IH|n k IH|R q k IH|R q k IH]; intros db Hdb; cbn.
  - done.
  - done.
  - specialize (IH db Hdb). by destruct (run f k db).
  - specialize (IH db Hdb). by destruct (run f k db).
  - destruct (perform f q db) as [[db' r]|] eqn:Hq.
    + apply IH. by eapply perform_log_ordered.
    + by apply IH.
  - destruct (perform f q db) as [[db' r]|] eqn:Hq.
    + apply IH. by eapply perform_log_ordered.
    + by apply IH.
Qed.

Lemma tick_log_ordered (d : Z) (db : DB) :
  0 <= d -> log_ordered db -> log_ordered (tick d db).
Proof.
  intros Hd [Hs Hle]. split; [done|]. cbn.
  eapply Forall_impl; [exact Hle|]. cbn. intros e He. lia.
Qed.

Lemma apply_ops_log_ordered (ops : list Op) (db : DB) :
  log_ordered db -> log_ordered (apply_ops ops db).
Proof.
  revert db. induction ops as [|o ops IH]; intros db Hdb; [done|].
  cbn. apply IH. destruct o as [f r|d]; cbn.
  - by apply run_log_ordered.
  - apply tick_log_ordered; [lia|done].
Qed.

(** ** Syncing *)

Lemma changeLog_cases (l : list ChangeLog) :
  changeLog l =
    ChangeLogJson (default 0 (cl_createdAt <$> last l))
                  ((fun e => (cl_taskId e, cl_status e)) <$> l).
Proof.
  unfold changeLog. destruct (last l) eqn:Hl; [done|].
  apply last_None in Hl as ->. done.
Qed.

Lemma nothing_newer_than_last (since : Z) (db : DB) (e : ChangeLog) :
  Sorted Z.le (cl_createdAt <$> changelogs db) ->
  last (newer_than since db) = Some e ->
  newer_than (cl_createdAt e) db = [].
Proof.
  intros Hs Hlast. unfold newer_than. apply filter_none_in.
  intros x Hin Hx.
  assert (He : e ∈ newer_than since db) by (by apply last_Some_elem_of).
  apply list_elem_of_filter in He as [He _].
  destruct (decide (since < cl_createdAt x)) as [Hnew|Hold]; [|lia].
  assert (cl_createdAt x <= cl_createdAt e); [|lia].
  apply (Sorted_le_last (cl_createdAt <$> newer_than since db)).
  - by apply Sorted_filter.
  - by rewrite fmap_last, Hlast.
  - apply list_elem_of_fmap. exists x. split; [done|].
    apply list_elem_of_filter. split; [done|].
    done.
Qed.

(** C5, as the code has it: on every store reached by running requests
    one after the other, a sync from [since] reports exactly the entries
    stamped later than [since], in ascending order of their stamps, with
    [lastUpdated] the stamp of the last of them, or 0 when there is none;
    and a sync from that stamp, with nothing new in between, reports no
    changes and [lastUpdated] 0. *)
Theorem sync_reports_newer_entries (ops : list Op) (db0 : DB) (since : Z) :
  log_ordered db0 ->
  let db := apply_ops ops db0 in
  let newer := newer_than since db in
  run no_faults (task_sync since) db =
    (db, [Sent (ChangeLogJson (default 0 (cl_createdAt <$> last newer))
                  ((fun e => (cl_taskId e, cl_status e)) <$> newer))]) /\
  (forall e, e ∈ newer <-> e ∈ changelogs db /\ since < cl_createdAt e) /\
  Sorted Z.le (cl_createdAt <$> newer) /\
  (newer = [] ->
   run no_faults (task_sync since) db = (db, [Sent (ChangeLogJson 0 [])])) /\
  (forall e, last newer = Some e ->
   run no_faults (task_sync (cl_createdAt e)) db =
     (db, [Sent (ChangeLogJson 0 [])])).
Proof.
  intros Hinit db newer.
  assert (Hord : log_ordered db) by (by apply apply_ops_log_ordered).
  destruct Hord as [Hsorted _].
  assert (Hrun : forall t, run no_faults (task_sync t) db =
            (db, [Sent (changeLog (newer_than t db))])) by done.
  split; [|split; [|split; [|split]]].
  - by rewrite Hrun, changeLog_cases.
  - intros e. unfold newer, newer_than. rewrite list_elem_of_filter. tauto.
  - by apply Sorted_filter.
  - intros Hnil. rewrite Hrun. fold newer. by rewrite Hnil.
  - intros e Hlast. rewrite Hrun.
    by rewrite (nothing_newer_than_last since db e).
Qed.

(** ** Responding *)

Lemma run_task_respond (f : Faults) (user : UserInstance) (b : TaskRespondBody)
    (db : DB) (resp ids : json) :
  JSON_parse (req_responses b) = Some resp ->
  JSON_parse (req_taskActionIds b) = Some ids ->
  f _ (Task_findOne (req_taskId b)) = false ->
  run f (task_respond user b) db =
    run f (respond_found user (req_taskId b) resp ids
             (Some (instance_of_task db (req_taskId b) <$> tasks db !! req_taskId b))) db.
Proof.
  intros Hresp Hids Hf. unfold task_respond. rewrite Hresp, Hids. cbn.
  unfold perform. by rewrite Hf.
Qed.

Lemma respond_found_accepted (user : UserInstance) (taskId : Z) (resp ids : json)
    (db : DB) (t : Task) (o : User) :
  answersLeft t <> 0 ->
  acceptingNewResponses (instance_of_task db taskId t) = None ->
  users db !! userId t = Some o ->
  respond_found user taskId resp ids (Some (Some (instance_of_task db taskId t))) =
    accept_response user taskId resp ids (instance_of_task db taskId t)
      (instance_of_user (userId t) o).
Proof.
  intros Hleft Hgate Howner. unfold respond_found.
  destruct (Z.eqb_spec (answersLeft (ti_row (instance_of_task db taskId t))) 0) as [Hz|_];
    [done|].
  rewrite Hgate. cbn. by rewrite Howner.
Qed.


(** What follows the creation of the response row touches neither the
    users, nor the tasks, nor the response rows. *)
Lemma record_responses_frame (f : Faults) (user : UserInstance) (task : TaskInstance)
    (ob : Z) (ot : string) (nb taskId : Z) (resp ids : json) (created : option Z) (db : DB) :
  let out := run f (record_responses user task ob ot nb taskId resp ids created) db in
  users out.1 = users db /\ tasks out.1 = tasks db /\
  taskresponses out.1 = taskresponses db /\
  next_task_id out.1 = next_task_id db.
Proof.
  unfold record_responses. destruct ids; cbn; try done.
  destruct (response_rows _ _ _ _); cbn; [|done].
  unfold perform. destruct (f _ _); cbn; [done|].
  destruct (f _ _); cbn; done.
Qed.

(** Replaces the run of [record_responses] in the goal by a store with the
    same users, tasks, response rows and task counter. *)
Ltac frame_record_responses Hu Ht Hr Hn :=
  match goal with
  | |- context [run ?f (record_responses ?a ?b ?c ?d ?e ?g ?h ?i ?j) ?db'] =>
      let db'' := fresh "db" in
      let tr := fresh "tr" in
      pose proof (record_responses_frame f a b c d e g h i j db') as (Hu & Ht & Hr & Hn);
      destruct (run f (record_responses a b c d e g h i j) db') as [db'' tr];
      cbn in *
  end.

(** C2, as the code has it: the two balance updates and the decrement are
    issued before the response row is created, and nothing takes them
    back.  When the store rejects the response row, the client gets the
    error, no response row exists, and yet [answersLeft] is one less and
    the cost has left the owner and reached the responder. *)
Theorem failed_response_keeps_decrement_and_transfer
    (db : DB) (user : UserInstance) (b : TaskRespondBody) (resp ids : json)
    (t : Task) (o u : User) :
  JSON_parse (req_responses b) = Some resp ->
  JSON_parse (req_taskActionIds b) = Some ids ->
  tasks db !! req_taskId b = Some t ->
  users db !! userId t = Some o ->
  users db !! ui_id user = Some u ->
  ui_id user <> userId t ->
  answersLeft t <> 0 ->
  acceptingNewResponses (instance_of_task db (req_taskId b) t) = None ->
  let out := run fail_response_create (task_respond user b) db in
  answer out.2 = Some (Failure StoreError) /\
  taskresponses out.1 = taskresponses db /\
  answersLeft <$> tasks out.1 !! req_taskId b = Some (answersLeft t - 1) /\
  balance <$> users out.1 !! userId t = Some (balance o - cost t) /\
  balance <$> users out.1 !! ui_id user = Some (ui_balance user + cost t).
Proof.
  intros Hresp Hids Htask Howner Huser Hne Hleft Hgate out. subst out.
  rewrite (run_task_respond _ _ _ _ resp ids) by done.
  rewrite Htask. cbn [fmap option_fmap option_map].
  rewrite (respond_found_accepted _ _ _ _ _ _ o) by done.
  unfold accept_response. cbn -[record_responses].
  frame_record_responses Hu Ht Hr Hn. rewrite Hu, Ht, Hr.
  split; [done|]. split; [done|].
  rewrite lookup_alter_eq, Htask. split; [done|].
  rewrite lookup_alter_ne, lookup_alter_eq, Howner by done. split; [done|].
  by rewrite lookup_alter_eq, lookup_alter_ne, Huser by done.
Qed.




(** ** Two responses for the last slot *)



(** *** Any schedule *)










(** ** The counter of a task over a sequence of requests *)

Lemma run_task_add_change (f : Faults) (b : TaskAddBody) (db : DB) :
  tasks_change db (run f (task_add b) db).1.
Proof.
  unfold task_add.
  destruct (negb _); [by apply tasks_same|].
  destruct (_ || _); [by apply tasks_same|].
  cbn. unfold perform. destruct (f _ _); cbn; [by apply tasks_same|].
  destruct (columnInt (req_userId b)); cbn; [|by apply tasks_same].
  destruct (columnInt (req_cost b)); cbn; [|by apply tasks_same].
  destruct (columnInt (req_answersLeft b)); cbn; [|by apply tasks_same].
  unfold perform. destruct (f _ _); cbn; by eapply tasks_inserted.
Qed.

Lemma run_task_delete_change (f : Faults) (taskId : Z) (db : DB) :
  tasks_change db (run f (task_delete taskId) db).1.
Proof.
  cbn. unfold perform.
  destruct (f _ (Task_destroy taskId)); cbn;
    destruct (f _ _); cbn; try use_drops;
    (by apply tasks_same)
    || (eapply tasks_deleted; cbn; by rewrite ?Dt, ?Dn1).
Qed.

Lemma run_task_respond_change (f : Faults) (user : UserInstance) (b : TaskRespondBody) (db : DB) :
  tasks_change db (run f (task_respond user b) db).1.
Proof.
  unfold task_respond.
  destruct (JSON_parse (req_responses b)) as [resp|]; [|by apply tasks_same].
  destruct (JSON_parse (req_taskActionIds b)) as [ids|]; [|by apply tasks_same].
  cbn. unfold perform. destruct (f _ _); cbn; [by apply tasks_same|].
  destruct (tasks db !! req_taskId b) as [t|] eqn:Htask; cbn; [|by apply tasks_same].
  destruct (Z.eqb_spec (answersLeft t) 0) as [Hz|Hnz]; [by apply tasks_same|].
  destruct (acceptingNewResponses _); [by apply tasks_same|].
  destruct (users db !! userId t) as [o|]; cbn -[record_responses];
    [|by apply tasks_same].
  unfold perform.
  repeat match goal with
  | |- context [if f ?R ?q then _ else _] => destruct (f R q)
  end; cbn -[record_responses];
  frame_record_responses Hu Ht Hr Hn.
  all: first [by apply tasks_same | by eapply (tasks_decremented _ _ (req_taskId b) t)].
Qed.

Lemma run_handler_change (f : Faults) (r : Request) (db : DB) :
  tasks_change db (run f (handler r) db).1.
Proof.
  destruct r as [b|taskId|taskId|lastUpdated|user b]; cbn [handler].
  - apply run_task_add_change.
  - apply run_task_delete_change.
  - cbn. unfold perform. destruct (f _ _); by apply tasks_same.
  - cbn. unfold perform. destruct (f _ _); by apply tasks_same.
  - apply run_task_respond_change.
Qed.

Lemma change_keys_fresh (db db' : DB) :
  tasks_change db db' -> keys_fresh db ->
  keys_fresh db' /\ next_task_id db <= next_task_id db'.
Proof.
  unfold keys_fresh. intros [Ht Hn|t Ht Hn|id Ht Hn|id t Hin Hnz Ht Hn] Hfresh;
    rewrite Ht, Hn; (split; [|lia]).
  - done.
  - apply map_Forall_insert_2; [lia|].
    eapply map_Forall_impl; [exact Hfresh|]. cbn. intros. lia.
  - by apply map_Forall_delete.
  - intros k x. rewrite lookup_alter.
    destruct (decide (id = k)) as [->|_]; [|by apply Hfresh].
    rewrite Hin. cbn. intros _. by apply (Hfresh k t).
Qed.

Lemma change_counter (db db' : DB) (id : Z) (t' : Task) :
  tasks_change db db' -> id < next_task_id db ->
  tasks db' !! id = Some t' ->
  exists t, tasks db !! id = Some t /\
            (answersLeft t' = answersLeft t \/
             (answersLeft t <> 0 /\ answersLeft t' = answersLeft t - 1)).
Proof.
  intros [Ht Hn|t Ht Hn|k Ht Hn|k t Hin Hnz Ht Hn] Hid; rewrite Ht.
  - eauto.
  - rewrite lookup_insert_ne by lia. eauto.
  - rewrite lookup_delete. destruct (decide (k = id)); [done|]. eauto.
  - rewrite lookup_alter. destruct (decide (k = id)) as [->|_]; [|by eauto].
    rewrite Hin. cbn. intros [= <-]. exists t. split; [done|]. right. done.
Qed.

Lemma apply_op_change (o : Op) (db : DB) : tasks_change db (apply_op o db).
Proof.
  destruct o as [f r|d]; cbn.
  - apply run_handler_change.
  - by apply tasks_same.
Qed.

Lemma apply_ops_snoc (ops : list Op) (o : Op) (db : DB) :
  apply_ops (ops ++ [o]) db = apply_op o (apply_ops ops db).
Proof. unfold apply_ops. by rewrite foldl_app. Qed.

Lemma apply_ops_counter (ops : list Op) (db : DB) :
  keys_fresh db ->
  keys_fresh (apply_ops ops db) /\
  next_task_id db <= next_task_id (apply_ops ops db) /\
  forall id t', id < next_task_id db ->
    tasks (apply_ops ops db) !! id = Some t' ->
    exists t, tasks db !! id = Some t /\
              (0 <= answersLeft t -> 0 <= answersLeft t' <= answersLeft t).
Proof.
  intros Hfresh. induction ops as [|o ops IH] using rev_ind.
  - cbn. split; [done|]. split; [lia|]. intros id t' _ Hin. exists t'.
    split; [done|]. lia.
  - rewrite apply_ops_snoc. destruct IH as (Hfresh' & Hnext & IH).
    pose proof (apply_op_change o (apply_ops ops db)) as Hchange.
    destruct (change_keys_fresh _ _ Hchange Hfresh') as [Hfresh'' Hnext'].
    split; [done|]. split; [lia|]. intros id t' Hid Hin.
    destruct (change_counter _ _ id t' Hchange) as (t1 & Hin1 & Hstep);
      [lia|done|].
    destruct (IH id t1 Hid Hin1) as (t & Hin0 & Hle).
    exists t. split; [done|]. intros Hpos. specialize (Hle Hpos). lia.
Qed.

Lemma exhausted_task_rejects (f : Faults) (user : UserInstance) (b : TaskRespondBody)
    (db : DB) (t : Task) :
  tasks db !! req_taskId b = Some t -> answersLeft t = 0 ->
  let out := run f (task_respond user b) db in
  out.1 = db /\
  (forall bal, answer out.2 <> Some (Responded bal)) /\
  (is_Some (JSON_parse (req_responses b)) ->
   is_Some (JSON_parse (req_taskActionIds b)) ->
   f _ (Task_findOne (req_taskId b)) = false ->
   answer out.2 = Some (Failure (Msg "Task is already completed."))).
Proof.
  intros Htask Hz. unfold task_respond.
  destruct (JSON_parse (req_responses b)) as [resp|]; cbn.
  2:{ split; [done|]. split; [done|]. by intros []. }
  destruct (JSON_parse (req_taskActionIds b)) as [ids|]; cbn.
  2:{ split; [done|]. split; [done|]. by intros _ []. }
  unfold perform. destruct (f _ _); cbn; [done|].
  rewrite Htask. cbn. rewrite Hz. cbn. done.
Qed.

Lemma fetch_finds_task (db : DB) (id : Z) (t : Task) (s : string) (v : json) :
  s <> EmptyString -> JSON_parse s = Some v -> where_id v id = true ->
  tasks db !! id = Some t ->
  exists l, run no_faults (task_fetch (Some s)) db = (db, [Sent (Tasks l)]) /\
            aggregate_of_task db id t ∈ l.
Proof.
  intros Hs Hv Hid Hin. unfold task_fetch, requestedFetchTaskIds.
  destruct s; [done|]. rewrite Hv. cbn. eexists. split; [done|].
  apply list_elem_of_fmap. exists (id, t). split; [done|].
  apply list_elem_of_filter. split; [done|]. by apply elem_of_map_to_list.
Qed.

(** C3, as the code has it: for a task whose counter is not negative and
    any sequence of requests and clock ticks run one after the other, the
    counter of the task, as long as the task exists, stays at or above 0
    and never goes up; and once it is 0 no response is accepted, the
    store is left as it is, the answer is that the task is already
    completed, and a fetch still returns the task.  The keys stay fresh,
    so the same holds again from the store that was reached. *)
Theorem counter_of_a_task (ops : list Op) (db : DB) (id : Z) (t t' : Task) :
  keys_fresh db ->
  tasks db !! id = Some t ->
  0 <= answersLeft t ->
  tasks (apply_ops ops db) !! id = Some t' ->
  keys_fresh (apply_ops ops db) /\
  0 <= answersLeft t' <= answersLeft t /\
  (answersLeft t' = 0 ->
   (forall (f : Faults) user b, req_taskId b = id ->
      let out := run f (task_respond user b) (apply_ops ops db) in
      out.1 = apply_ops ops db /\
      (forall bal, answer out.2 <> Some (Responded bal)) /\
      (is_Some (JSON_parse (req_responses b)) ->
       is_Some (JSON_parse (req_taskActionIds b)) ->
       f _ (Task_findOne (req_taskId b)) = false ->
       answer out.2 = Some (Failure (Msg "Task is already completed.")))) /\
   (forall s v, s <> EmptyString -> JSON_parse s = Some v -> where_id v id = true ->
      exists l, run no_faults (task_fetch (Some s)) (apply_ops ops db) =
                  (apply_ops ops db, [Sent (Tasks l)]) /\
                aggregate_of_task (apply_ops ops db) id t' ∈ l)).
Proof.
  intros Hfresh Hin Hpos Hin'.
  destruct (apply_ops_counter ops db Hfresh) as (Hfresh' & _ & Hcount).
  destruct (Hcount id t') as (t0 & Hin0 & Hle); [by apply (Hfresh id t)|done|].
  rewrite Hin in Hin0. injection Hin0 as <-.
  split; [done|]. split; [by apply Hle|]. intros Hz. split.
  - intros f user b <-. by apply (exhausted_task_rejects f user b _ t').
  - intros s v Hs Hv Hid. by apply (fetch_finds_task _ _ _ s v).
Qed.

End Properties.

(** ** The examples *)

Lemma fetch_without_ids_is_empty_witness :
  (Some "[1" = None \/
   (exists s, Some "[1"%string = Some s /\ @JSON_parse node s = None)) /\
  @requestedFetchTaskIds node (Some "[1"%string) = JArr [] /\
  @run node no_faults (@task_fetch node (Some "[1"%string)) store1 =
    (store1, [Sent (Tasks [])]).
Proof.
  assert (Hin : Some "[1"%string = None \/
     (exists s, Some "[1"%string = Some s /\ @JSON_parse node s = None)).
  { right. exists "[1"%string. split; reflexivity. }
  split; [exact Hin|].
  exact (@fetch_without_ids_is_empty node store1 (Some "[1"%string) Hin).
Defined.


(** The guard tells a coordinate of 0 from a number, too: a task on the
    equator is refused. *)
Lemma zero_latitude_is_refused :
  numeric (parseFloat "0") = true /\
  forall f db, @run node f (task_add (add_body "5" "2" "0" "-74")) db =
    (db, [Sent (Failure (Msg "Lat and Lng must both be numbers."))]).
Proof. split; reflexivity. Qed.


(** C7, as the spec has it, fails: task 9 does not exist, and deleting it
    leaves a DELETED entry in the change log. *)
Lemma delete_missing_task_leaves_entry :
  tasks store1 !! 9 = None /\
  changelogs store1 = [] /\
  changelogs (@run node no_faults (task_delete 9) store1).1 =
    [{| cl_taskId := 9; cl_status := DELETED; cl_createdAt := 1000 |}].
Proof. vm_compute. done. Qed.

Lemma delete_missing_task_witness :
  tasks store1 !! 9 = None /\
  @run node no_faults (task_delete 9) store1 =
    (add_changelog {| cl_taskId := 9; cl_status := DELETED;
                      cl_createdAt := now store1 |} store1,
     [Sent RedirectIndex]) /\
  tasks (@run node no_faults (task_delete 9) store1).1 = tasks store1 /\
  changelogs (@run node no_faults (task_delete 9) store1).1 =
    changelogs store1 ++ [{| cl_taskId := 9; cl_status := DELETED;
                             cl_createdAt := now store1 |}].
Proof.
  assert (Hnone : tasks store1 !! 9 = None) by reflexivity.
  split; [exact Hnone|].
  exact (@delete_missing_task node store1 9 Hnone).
Defined.

(** C8: responding to task 9, which does not exist, changes nothing in
    the store, and the client gets no answer at all: the handler throws
    on the missing task inside a promise callback that no catch follows,
    so no error reaches the error middleware. *)
Theorem respond_to_missing_task_is_not_answered :
  tasks store1 !! 9 = None /\
  @run node no_faults
    (@task_respond node ann {| req_taskId := 9; req_responses := "{}";
                               req_taskActionIds := "[]" |}) store1
  = (store1, [Crashed]) /\
  answer [Crashed] = None.
Proof. vm_compute. done. Qed.

(** C5, as the spec has it, fails: after a sync from 0 has answered
    [lastUpdated] 1000, a sync from 1000, with nothing new, answers
    [lastUpdated] 0 and not 1000. *)
Lemma second_sync_resets_lastUpdated :
  @run node no_faults (task_sync 0) store2 =
    (store2, [Sent (ChangeLogJson 1000 [(1, DELETED)])]) /\
  @run node no_faults (task_sync 1000) store2 =
    (store2, [Sent (ChangeLogJson 0 [])]) /\
  0 <> 1000.
Proof. vm_compute. done. Qed.

Lemma sync_reports_newer_entries_witness :
  log_ordered store1 /\
  let db := @apply_ops node
              [Call no_faults (ReqDelete 1); Tick 5;
               Call no_faults (ReqAdd (add_body "5" "2" "40.7" "-74"))] store1 in
  let newer := newer_than 1000 db in
  @run node no_faults (task_sync 1000) db =
    (db, [Sent (ChangeLogJson (default 0 (cl_createdAt <$> last newer))
                  ((fun e => (cl_taskId e, cl_status e)) <$> newer))]) /\
  (forall e, e ∈ newer <-> e ∈ changelogs db /\ 1000 < cl_createdAt e) /\
  Sorted Z.le (cl_createdAt <$> newer) /\
  (newer = [] ->
   @run node no_faults (task_sync 1000) db = (db, [Sent (ChangeLogJson 0 [])])) /\
  (forall e, last newer = Some e ->
   @run node no_faults (task_sync (cl_createdAt e)) db =
     (db, [Sent (ChangeLogJson 0 [])])).
Proof.
  assert (Hord : log_ordered store1).
  { split; cbn; constructor. }
  split; [exact Hord|].
  exact (@sync_reports_newer_entries node
           [Call no_faults (ReqDelete 1); Tick 5;
            Call no_faults (ReqAdd (add_body "5" "2" "40.7" "-74"))]
           store1 1000 Hord).
Defined.




(** C2, as the spec has it, fails: the store rejects Ann's response row,
    she gets the error, and the store is not what it was: the counter of
    task 1 went from 1 to 0 and 5 moved from the owner to her. *)
Lemma decrement_survives_failed_response :
  let out := @run node fail_response_create (@task_respond node ann respond1) store1 in
  answer out.2 = Some (Failure StoreError) /\
  taskresponses out.1 = [] /\
  answersLeft <$> tasks store1 !! 1 = Some 1 /\
  answersLeft <$> tasks out.1 !! 1 = Some 0 /\
  balance <$> users store1 !! 1 = Some 100 /\
  balance <$> users out.1 !! 1 = Some 95 /\
  balance <$> users store1 !! 2 = Some 10 /\
  balance <$> users out.1 !! 2 = Some 15 /\
  out.1 <> store1.
Proof.
  vm_compute. repeat split. intros Heq. discriminate Heq.
Qed.

Lemma failed_response_keeps_decrement_and_transfer_witness :
  @JSON_parse node (req_responses respond1) = Some (JObj []) /\
  @JSON_parse node (req_taskActionIds respond1) = Some (JArr []) /\
  users store1 !! 1 = Some (user_row 100 "owner") /\
  users store1 !! 2 = Some (user_row 10 "ann") /\
  (let out := @run node fail_response_create (@task_respond node ann respond1) store1 in
   answer out.2 = Some (Failure StoreError) /\
   taskresponses out.1 = taskresponses store1 /\
   answersLeft <$> tasks out.1 !! 1 = Some 0 /\
   balance <$> users out.1 !! 1 = Some 95 /\
   balance <$> users out.1 !! 2 = Some 15).
Proof.
  assert (Hr : @JSON_parse node (req_responses respond1) = Some (JObj [])) by reflexivity.
  assert (Hi : @JSON_parse node (req_taskActionIds respond1) = Some (JArr [])) by reflexivity.
  assert (Ho : users store1 !! 1 = Some (user_row 100 "owner")) by reflexivity.
  assert (Ha : users store1 !! 2 = Some (user_row 10 "ann")) by reflexivity.
  split; [exact Hr|]. split; [exact Hi|]. split; [exact Ho|]. split; [exact Ha|].
  exact (@failed_response_keeps_decrement_and_transfer node store1 ann respond1
           _ _ _ _ _ Hr Hi eq_refl Ho Ha ltac:(done) ltac:(done) eq_refl).
Defined.



(** C9: the DELETED entry does not wait for the delete.  The store
    rejects the delete of task 1; the client gets the error, the task is
    still there and is fetched as before, and a sync already reports
    task 1 as DELETED. *)
Theorem deleted_entry_without_delete :
  let out := @run node fail_destroy (task_delete 1) store1 in
  answer out.2 = Some (Failure StoreError) /\
  tasks out.1 = tasks store1 /\
  (exists agg, answer (@run node no_faults (@task_fetch node (Some "[1]"%string)) out.1).2
               = Some (Tasks [agg]) /\ agg_id agg = 1) /\
  answer (@run node no_faults (task_sync 0) out.1).2 =
    Some (ChangeLogJson 1000 [(1, DELETED)]).
Proof. vm_compute. split; [done|]. split; [done|]. split; [eauto|done]. Qed.

(** The same slip in the respond handler: its second [then] follows the
    [catch], so with an empty list of action ids it runs on after a
    rejected response row and logs UPDATED for a response that is not
    there. *)
Lemma updated_entry_without_response :
  let out := @run node fail_response_create (@task_respond node ann respond1) store1 in
  answer out.2 = Some (Failure StoreError) /\
  taskresponses out.1 = [] /\
  changelogs out.1 = [{| cl_taskId := 1; cl_status := UPDATED; cl_createdAt := 1000 |}].
Proof. vm_compute. done. Qed.

(** C3, as the spec has it, fails.  A task is created with answersLeft -1:
    its counter is negative, never meets 0, and the next response is
    accepted and takes it to -2.  And the counter can go up: with two
    answers left, Bob's handler loads the task, Ann responds twice and the
    counter is 0, then Bob's handler goes on and writes 2 - 1. *)
Lemma counter_below_zero_and_up :
  (let db := (@run node no_faults (task_add (add_body "5" "-1" "40.7" "-74")) store1).1 in
   answersLeft <$> tasks db !! 2 = Some (-1) /\
   (let out := @run node no_faults
                 (@task_respond node ann {| req_taskId := 2; req_responses := "{}";
                                            req_taskActionIds := "[]" |}) db in
    answer out.2 = Some (Responded 15) /\
    answersLeft <$> tasks out.1 !! 2 = Some (-2))) /\
  (let '(d0, bobs, _) :=
     @step node no_faults (@task_respond node bob respond1) (store_with 2) in
   let d1 := (@run node no_faults (@task_respond node ann respond1) d0).1 in
   let d2 := (@run node no_faults
                (@task_respond node (instance_of_user 2 (user_row 15 "ann")) respond1)
                d1).1 in
   let d3 := @run node no_faults bobs d2 in
   answersLeft <$> tasks d1 !! 1 = Some 1 /\
   answersLeft <$> tasks d2 !! 1 = Some 0 /\
   answer d3.2 = Some (Responded 5) /\
   answersLeft <$> tasks d3.1 !! 1 = Some 1).
Proof. vm_compute. done. Qed.

Lemma store1_keys_fresh : keys_fresh store1.
Proof.
  unfold keys_fresh, store1. cbn.
  apply map_Forall_insert_2; [lia|]. apply map_Forall_empty.
Qed.

Lemma counter_of_a_task_witness :
  keys_fresh store1 /\
  (let db' := @apply_ops node
                [Call no_faults (ReqRespond ann respond1); Tick 3;
                 Call fail_response_create (ReqRespond bob respond1);
                 Call no_faults (ReqAdd (add_body "5" "2" "40.7" "-74"))] store1 in
   answersLeft <$> tasks store1 !! 1 = Some 1 /\
   answersLeft <$> tasks db' !! 1 = Some 0 /\
   (forall (f : Faults) user b, req_taskId b = 1 ->
      let out := @run node f (@task_respond node user b) db' in
      out.1 = db' /\
      (forall bal, answer out.2 <> Some (Responded bal)) /\
      (is_Some (@JSON_parse node (req_responses b)) ->
       is_Some (@JSON_parse node (req_taskActionIds b)) ->
       f _ (Task_findOne (req_taskId b)) = false ->
       answer out.2 = Some (Failure (Msg "Task is already completed.")))) /\
   (exists l, @run node no_faults (@task_fetch node (Some "[1]"%string)) db' =
                (db', [Sent (Tasks l)]) /\
              exists agg, agg ∈ l /\ agg_id agg = 1)).
Proof.
  pose proof store1_keys_fresh as Hfresh.
  split; [exact Hfresh|].
  pose proof (@counter_of_a_task node
    [Call no_faults (ReqRespond ann respond1); Tick 3;
     Call fail_response_create (ReqRespond bob respond1);
     Call no_faults (ReqAdd (add_body "5" "2" "40.7" "-74"))]
    store1 1 _ _ Hfresh eq_refl ltac:(done) eq_refl) as (_ & _ & Hzero).
  destruct (Hzero eq_refl) as (Hreject & Hfetch).
  split; [reflexivity|]. split; [reflexivity|]. split; [exact Hreject|].
  destruct (Hfetch "[1]"%string (JArr [JNum (Dec false 1 0)]))
    as (l & Hrun & Hl); [done|reflexivity|reflexivity|].
  exists l. split; [exact Hrun|]. eexists. split; [exact Hl|reflexivity].
Defined.

(** * More of the controller *)

Section More.

Context `{Platform}.

(** ** The change log only grows *)

Lemma filter_all {A} (P : A -> Prop) `{!forall x, Decision (P x)} (l : list A) :
  Forall P l -> filter P l = l.
Proof.
  induction 1 as [|x l Hx _ IH]; [done|].
  rewrite filter_cons. destruct (decide (P x)); [by rewrite IH|done].
Qed.

Lemma log_extends_refl (db : DB) : log_extends db db.
Proof. split; [lia|]. exists []. by rewrite app_nil_r. Qed.

Lemma log_extends_trans (db1 db2 db3 : DB) :
  log_extends db1 db2 -> log_extends db2 db3 -> log_extends db1 db3.
Proof.
  intros (Hn1 & a1 & He1 & Ha1) (Hn2 & a2 & He2 & Ha2). split; [lia|].
  exists (a1 ++ a2). split; [by rewrite He2, He1, app_assoc|].
  apply Forall_app. split.
  - eapply Forall_impl; [exact Ha1|]. cbn. intros. lia.
  - eapply Forall_impl; [exact Ha2|]. cbn. intros. lia.
Qed.

Lemma log_extends_same (db db' : DB) :
  changelogs db' = changelogs db -> now db' = now db -> log_extends db db'.
Proof.
  intros Hlog Hnow. split; [lia|]. exists []. by rewrite app_nil_r.
Qed.

Lemma exec_log_extends {R} (q : Query R) (db db' : DB) (r : R) :
  exec q db = Some (db', r) -> log_extends db db'.
Proof.
  intros Hexec. destruct q; cbn in Hexec;
    try (simplify_eq; by apply log_extends_same).
  - repeat case_match; simplify_eq. unfold insert_task in *. simplify_eq.
    by apply log_extends_same.
  - simplify_eq. use_drops. by apply log_extends_same.
  - simplify_eq. split; [cbn; lia|]. eexists. split; [done|].
    repeat constructor; cbn; lia.
Qed.

Lemma run_log_extends (f : Faults) (p : Proc) (db : DB) :
  log_extends db (run f p db).1.
Proof.
  revert db. induction p as [| |r k IH|n k IH|R q k IH|R q k IH]; intros db; cbn.
  - apply log_extends_refl.
  - apply log_extends_refl.
  - specialize (IH db). by destruct (run f k db).
  - specialize (IH db). by destruct (run f k db).
  - unfold perform. destruct (f _ _); [apply IH|].
    destruct (exec q db) as [[db' r]|] eqn:Hq; [|apply IH].
    eapply log_extends_trans; [by eapply exec_log_extends|apply IH].
  - unfold perform. destruct (f _ _); [apply IH|].
    destruct (exec q db) as [[db' r]|] eqn:Hq; [|apply IH].
    eapply log_extends_trans; [by eapply exec_log_extends|apply IH].
Qed.

Lemma apply_ops_log_extends (ops : list Op) (db : DB) :
  log_extends db (apply_ops ops db).
Proof.
  revert db. induction ops as [|o ops IH]; intros db; [apply log_extends_refl|].
  cbn. eapply log_extends_trans; [|apply IH].
  destruct o as [f r|d]; cbn.
  - apply run_log_extends.
  - split; cbn; [lia|]. exists []. by rewrite app_nil_r.
Qed.

(** X2: polling loses nothing and repeats nothing once the clock has moved
    on.  When every entry of the log is stamped at or before [since] and
    the clock is past [since], then after any further requests a sync from
    [since] reports exactly the entries added in the meantime, in the
    order in which they were added. *)
Theorem sync_reports_what_was_added (ops : list Op) (db : DB) (since : Z) :
  Forall (fun e => cl_createdAt e <= since) (changelogs db) ->
  since < now db ->
  let db' := apply_ops ops db in
  newer_than since db' = drop (List.length (changelogs db)) (changelogs db') /\
  changelogs db' = changelogs db ++ newer_than since db' /\
  run no_faults (task_sync since) db' =
    (db', [Sent (changeLog (drop (List.length (changelogs db)) (changelogs db')))]).
Proof.
  intros Hold Hnow db'.
  destruct (apply_ops_log_extends ops db) as (Hn & added & Hlog & Hadded).
  fold db' in Hlog.
  assert (Hnew : newer_than since db' = added).
  { unfold newer_than. rewrite Hlog, filter_app.
    rewrite (filter_none_in _ (changelogs db)).
    - cbn. apply filter_all. eapply Forall_impl; [exact Hadded|].
      cbn. intros. lia.
    - intros e He. rewrite Forall_forall in Hold. specialize (Hold e He). lia. }
  assert (Hdrop : drop (List.length (changelogs db)) (changelogs db') = added).
  { by rewrite Hlog, drop_app_length. }
  split; [by rewrite Hnew, Hdrop|]. split; [by rewrite Hnew|].
  cbn. fold (newer_than since db'). by rewrite Hnew, Hdrop.
Qed.

(** ** Who changes the users *)

(** Puts the run of [record_responses] aside: it keeps the users, the
    tasks, the response rows and the task counter. *)
Ltac set_rest_aside Hu Ht Hr Hn :=
  match goal with
  | |- context [run ?f (record_responses ?a ?b ?c ?d ?e ?g ?h ?i ?j) ?db'] =>
      let db'' := fresh "db" in
      let tr := fresh "tr" in
      pose proof (record_responses_frame f a b c d e g h i j db') as (Hu & Ht & Hr & Hn);
      destruct (run f (record_responses a b c d e g h i j) db') as [db'' tr];
      cbn in *
  end.

Lemma run_task_add_users (f : Faults) (b : TaskAddBody) (db : DB) :
  users (run f (task_add b) db).1 = users db.
Proof.
  unfold task_add.
  destruct (negb _); [done|]. destruct (_ || _); [done|].
  cbn. unfold perform. destruct (f _ _); cbn; [done|].
  destruct (columnInt (req_userId b)); cbn; [|done].
  destruct (columnInt (req_cost b)); cbn; [|done].
  destruct (columnInt (req_answersLeft b)); cbn; [|done].
  unfold perform. destruct (f _ _); cbn; done.
Qed.

Lemma run_task_delete_users (f : Faults) (taskId : Z) (db : DB) :
  users (run f (task_delete taskId) db).1 = users db.
Proof.
  cbn. unfold perform.
  destruct (f _ (Task_destroy taskId)); cbn; destruct (f _ _); cbn;
    try use_drops; done.
Qed.

Lemma token_lookup_alter (b : Z) (k id : Z) (m : gmap Z User) :
  gcmToken <$> alter (set_balance b) k m !! id = gcmToken <$> m !! id.
Proof.
  rewrite lookup_alter. destruct (decide (k = id)) as [->|]; [|done].
  by destruct (m !! id).
Qed.

(** X3: balances are changed by the respond handler alone, and by it only
    for the owner of the task and the responder.  Creating, deleting,
    fetching and syncing leave every user as it is; a response, accepted
    or not and whatever fails, leaves every other user as it is, and
    never creates a user, removes one or touches a gcm token. *)
Theorem only_responses_move_balances (f : Faults) (db : DB) :
  (forall r, (forall user b, r <> ReqRespond user b) ->
             users (run f (handler r) db).1 = users db) /\
  (forall user b id,
     id <> ui_id user ->
     (forall t, tasks db !! req_taskId b = Some t -> id <> userId t) ->
     users (run f (task_respond user b) db).1 !! id = users db !! id) /\
  (forall user b id,
     gcmToken <$> users (run f (task_respond user b) db).1 !! id =
     gcmToken <$> users db !! id).
Proof.
  split; [|cut (forall user b id,
     (id <> ui_id user ->
      (forall t, tasks db !! req_taskId b = Some t -> id <> userId t) ->
      users (run f (task_respond user b) db).1 !! id = users db !! id) /\
     gcmToken <$> users (run f (task_respond user b) db).1 !! id =
     gcmToken <$> users db !! id)].
  - intros [b|taskId|taskId|lastUpdated|user b] Hr; cbn [handler].
    + apply run_task_add_users.
    + apply run_task_delete_users.
    + cbn. unfold perform. by destruct (f _ _).
    + cbn. unfold perform. by destruct (f _ _).
    + by destruct (Hr user b).
  - intros Hboth. split; intros user b id; by destruct (Hboth user b id).
  - intros user b id. unfold task_respond.
    destruct (JSON_parse (req_responses b)) as [resp|]; [|done].
    destruct (JSON_parse (req_taskActionIds b)) as [ids|]; [|done].
    cbn. unfold perform. destruct (f _ _); cbn; [done|].
    destruct (tasks db !! req_taskId b) as [t|] eqn:Htask; cbn; [|done].
    destruct (Z.eqb_spec (answersLeft t) 0) as [Hz|Hnz]; [done|].
    destruct (acceptingNewResponses _); [done|].
    destruct (users db !! userId t) as [o|]; cbn -[record_responses]; [|done].
    unfold perform.
    repeat match goal with
    | |- context [if f ?R ?q then _ else _] => destruct (f R q)
    end; cbn -[record_responses];
    set_rest_aside Hu Ht Hr Hn; rewrite Hu;
    (split;
     [intros Hid Ho; specialize (Ho t eq_refl);
      by rewrite ?lookup_alter_ne by done
     |by rewrite ?token_lookup_alter]).
Qed.

(** ** What a response leaves behind *)



(** X6: when the rows for [bulkCreate] cannot be built, because
    [taskActionIds] is JSON but not a list, or because [responses] is
    null and the list is not empty, the handler throws after the fact:
    the owner has paid, the responder is credited, the counter is one
    less and the response row exists, but no action response and no
    UPDATED entry is written and the client gets no answer. *)
Theorem unusable_answers_are_paid_for
    (db : DB) (user : UserInstance) (b : TaskRespondBody) (resp ids : json)
    (t : Task) (o u : User) :
  JSON_parse (req_responses b) = Some resp ->
  JSON_parse (req_taskActionIds b) = Some ids ->
  (forall l, ids <> JArr l) \/ (resp = JNull /\ exists i l, ids = JArr (i :: l)) ->
  tasks db !! req_taskId b = Some t ->
  users db !! userId t = Some o ->
  users db !! ui_id user = Some u ->
  ui_id user <> userId t ->
  answersLeft t <> 0 ->
  acceptingNewResponses (instance_of_task db (req_taskId b) t) = None ->
  let out := run no_faults (task_respond user b) db in
  out.2 = [Crashed] /\
  balance <$> users out.1 !! userId t = Some (balance o - cost t) /\
  balance <$> users out.1 !! ui_id user = Some (ui_balance user + cost t) /\
  answersLeft <$> tasks out.1 !! req_taskId b = Some (answersLeft t - 1) /\
  taskresponses out.1 =
    taskresponses db ++
      [{| tr_id := next_response_id db; tr_userId := ui_id user;
          tr_taskId := req_taskId b; tr_createdAt := now db |}] /\
  taskactionresponses out.1 = taskactionresponses db /\
  changelogs out.1 = changelogs db.
Proof.
  intros Hresp Hids Hbad Htask Howner Huser Hne Hleft Hgate out. subst out.
  rewrite (run_task_respond _ _ _ _ resp ids) by done.
  rewrite Htask. cbn [fmap option_fmap option_map].
  rewrite (respond_found_accepted _ _ _ _ _ _ o) by done.
  assert (Hrest : forall ob ot nb rid,
    record_responses user (instance_of_task db (req_taskId b) t) ob ot nb
      (req_taskId b) resp ids (Some rid) = Crash).
  { intros ob ot nb rid. unfold record_responses.
    destruct Hbad as [Hnl|(-> & i & l & ->)].
    - destruct ids; try done. by destruct (Hnl l).
    - done. }
  unfold accept_response. cbn -[record_responses]. rewrite Hrest. cbn.
  split; [done|].
  rewrite lookup_alter_ne, lookup_alter_eq, Howner by done. split; [done|].
  rewrite lookup_alter_eq, lookup_alter_ne, Huser by done. split; [done|].
  rewrite lookup_alter_eq, Htask. done.
Qed.



(** ** Creating, fetching and deleting a task *)

Lemma scalar_matches_json_int (k z : Z) :
  scalar_matches k (json_int z) = true <-> z = k.
Proof.
  unfold json_int, scalar_matches, dec_is. cbn.
  rewrite Z.mul_1_r. destruct (Z.ltb_spec z 0); rewrite Z.eqb_eq; lia.
Qed.

Lemma where_id_json_ids (l : list Z) (k : Z) :
  where_id (json_ids l) k = true <-> k ∈ l.
Proof.
  unfold json_ids, where_id. rewrite existsb_exists. split.
  - intros (v & Hv & Hm). apply list_elem_of_In, list_elem_of_fmap in Hv as (z & -> & Hz).
    apply scalar_matches_json_int in Hm as ->. done.
  - intros Hk. exists (json_int k). split.
    + apply list_elem_of_In, list_elem_of_fmap. eauto.
    + by apply scalar_matches_json_int.
Qed.


Lemma run_task_fetch (db : DB) (s : string) (v : json) :
  s <> EmptyString -> JSON_parse s = Some v ->
  run no_faults (task_fetch (Some s)) db =
    (db, [Sent (Tasks ((fun p => aggregate_of_task db p.1 p.2) <$>
                         filter (fun p => where_id v p.1 = true)
                                (map_to_list (tasks db))))]).
Proof.
  intros Hs Hv. unfold task_fetch, requestedFetchTaskIds.
  destruct s; [done|]. by rewrite Hv.
Qed.




(** X9: a request to add a task ends in one of three ways, whatever the
    store rejects.  It is refused or the insert fails: an error is sent
    and the store is as before.  Or the task is stored but its CREATED
    entry is rejected: the error is sent, nobody is notified, and the
    task stays, unlogged.  Or the task is stored and logged, every device
    is notified, and the answer carries the new key. *)
Theorem task_add_outcomes (f : Faults) (db : DB) (b : TaskAddBody) :
  let out := run f (task_add b) db in
  (out.1 = db /\
   exists e, out.2 = [Sent (Failure e)] \/ out.2 = [Sent (Failure e); Crashed]) \/
  (exists uid c a,
     columnInt (req_userId b) = Some uid /\ columnInt (req_cost b) = Some c /\
     columnInt (req_answersLeft b) = Some a /\
     f _ (ChangeLog_create (next_task_id db) CREATED) = true /\
     out = ((insert_task b uid c a db).1, [Sent (Failure StoreError)])) \/
  (exists uid c a,
     columnInt (req_userId b) = Some uid /\ columnInt (req_cost b) = Some c /\
     columnInt (req_answersLeft b) = Some a /\
     out = (add_changelog {| cl_taskId := next_task_id db; cl_status := CREATED;
                             cl_createdAt := now db |}
              (insert_task b uid c a db).1,
            [Notified (ToAll (req_taskName b));
             Sent (Created (next_task_id db)
                     (number_actions (next_task_id db) (next_action_id db)
                        (req_taskActions b)))])).
Proof.
  cbn zeta. unfold task_add.
  destruct (negb _); [left; eauto|].
  destruct (_ || _); [left; eauto|].
  cbn. unfold perform. destruct (f _ (Task_create b)); cbn; [left; eauto|].
  destruct (columnInt (req_userId b)) as [uid|]; cbn; [|left; eauto].
  destruct (columnInt (req_cost b)) as [c|]; cbn; [|left; eauto].
  destruct (columnInt (req_answersLeft b)) as [a|]; cbn; [|left; eauto].
  unfold perform, createChangeLogPromise.
  destruct (f _ (ChangeLog_create _ _)) eqn:Hlog; cbn.
  - right. left. exists uid, c, a. done.
  - right. right. exists uid, c, a. done.
Qed.

(** X10: deleting a task that exists removes that task and no other, logs
    DELETED for it and redirects; afterwards a fetch of its key returns
    the empty list and a sync from before reports the deletion last. *)
Theorem deleted_task_is_gone_but_reported
    (db : DB) (id : Z) (t : Task) (s : string) (since : Z) :
  tasks db !! id = Some t ->
  s <> EmptyString ->
  JSON_parse s = Some (json_ids [id]) ->
  since < now db ->
  let out := run no_faults (task_delete id) db in
  out.2 = [Sent RedirectIndex] /\
  tasks out.1 = delete id (tasks db) /\
  run no_faults (task_fetch (Some s)) out.1 = (out.1, [Sent (Tasks [])]) /\
  exists changes,
    run no_faults (task_sync since) out.1 =
      (out.1, [Sent (ChangeLogJson (now db) (changes ++ [(id, DELETED)]))]).
Proof.
  intros Hin Hs Hparse Hsince out. subst out. cbn [run task_delete].
  cbn -[task_fetch task_sync]. use_drops.
  split; [done|]. split; [by rewrite Dt|]. split.
  - rewrite (run_task_fetch _ s (json_ids [id])) by done. cbn -[json_ids].
    rewrite filter_none_in; [done|].
    intros [k x] Hk%elem_of_map_to_list Hw. cbn -[json_ids] in *.
    apply where_id_json_ids, list_elem_of_singleton in Hw as ->.
    by rewrite lookup_delete_eq in Hk.
  - exists ((fun e => (cl_taskId e, cl_status e)) <$> newer_than since db).
    cbn. rewrite Dc, Dnow, filter_app. cbn. rewrite decide_True by done.
    fold (newer_than since db). unfold changeLog. rewrite last_snoc.
    cbn. by rewrite fmap_app.
Qed.

(** ** The rows stay consistent *)













(** ** Responses, read back *)


(** ** Fetching by key *)

Lemma NoDup_fst_filter {A} (P : Z * A -> Prop) `{!forall p, Decision (P p)}
    (l : list (Z * A)) :
  NoDup l.*1 -> NoDup (filter P l).*1.
Proof.
  induction l as [|[k x] l IH]; [done|].
  rewrite fmap_cons, NoDup_cons. intros [Hk Hl].
  rewrite filter_cons. destruct (decide (P (k, x))); [|by apply IH].
  rewrite fmap_cons, NoDup_cons. split; [|by apply IH].
  intros Hin. apply Hk. apply list_elem_of_fmap in Hin as ([k' y] & -> & Hy).
  apply list_elem_of_filter in Hy as [_ Hy]. apply list_elem_of_fmap.
  by exists (k', y).
Qed.

(** X13: a fetch with a list of keys returns one aggregate for each key of
    the list that belongs to a task, however often the key is listed, and
    drops the keys that belong to none, without an error. *)
Theorem fetch_returns_the_requested_tasks (db : DB) (s : string) (l : list Z) :
  s <> EmptyString ->
  JSON_parse s = Some (json_ids l) ->
  exists found,
    run no_faults (task_fetch (Some s)) db = (db, [Sent (Tasks found)]) /\
    NoDup (agg_id <$> found) /\
    forall agg, agg ∈ found <->
      exists id t, id ∈ l /\ tasks db !! id = Some t /\
                   agg = aggregate_of_task db id t.
Proof.
  intros Hs Hparse. eexists. split; [by apply run_task_fetch|]. split.
  - rewrite <- list_fmap_compose.
    change (agg_id ∘ _) with (fst : Z * Task -> Z).
    apply NoDup_fst_filter, NoDup_fst_map_to_list.
  - intros agg. rewrite list_elem_of_fmap. split.
    + intros ([id t] & -> & Hin). apply list_elem_of_filter in Hin as [Hw Hin].
      exists id, t. cbn in *. split; [by apply where_id_json_ids|].
      split; [by apply elem_of_map_to_list|done].
    + intros (id & t & Hid & Hin & ->). exists (id, t). split; [done|].
      apply list_elem_of_filter. split; [by apply where_id_json_ids|].
      by apply elem_of_map_to_list.
Qed.

(** ** The counter under any schedule *)

Lemma exec_nonneg {R} (q : Query R) (db db' : DB) (r : R) :
  query_nonneg q -> counters_nonneg db -> exec q db = Some (db', r) ->
  counters_nonneg db' /\ reply_nonneg q r.
Proof.
  unfold counters_nonneg. intros Hq Hdb Hexec.
  destruct q; cbn in Hexec, Hq |- *.
  - destruct (columnInt (req_userId b)); [|done].
    destruct (columnInt (req_cost b)); [|done].
    destruct (columnInt (req_answersLeft b)) as [a|]; [|done].
    unfold insert_task in Hexec. injection Hexec as <- <-. split; [|done]. cbn.
    apply map_Forall_insert_2; [by apply Hq|done].
  - injection Hexec as <- <-. split; [|done]. cbn. use_drops. rewrite Dt.
    by apply map_Forall_delete.
  - injection Hexec as <- <-. by split.
  - injection Hexec as <- <-. split; [done|]. intros task Htask.
    destruct (tasks db !! id) as [t|] eqn:Hin; [|done].
    injection Htask as <-. cbn. by apply (Hdb id t).
  - injection Hexec as <- <-. split; [|done]. cbn. intros k x.
    rewrite lookup_alter.
    destruct (decide (id = k)) as [->|_]; [|by apply Hdb].
    destruct (tasks db !! k); cbn; [|done]. by intros [= <-].
  - injection Hexec as <- <-. by split.
  - injection Hexec as <- <-. by split.
  - injection Hexec as <- <-. by split.
  - injection Hexec as <- <-. by split.
  - injection Hexec as <- <-. by split.
Qed.

Lemma step_nonneg (f : Faults) (p : Proc) (db : DB) :
  proc_nonneg p -> counters_nonneg db ->
  counters_nonneg (step f p db).1.1 /\ proc_nonneg (step f p db).1.2.
Proof.
  intros Hp Hdb. destruct p; cbn in *; try done.
  - destruct Hp as [Hq Hk]. unfold perform. destruct (f _ _); [done|].
    destruct (exec q db) as [[db' r]|] eqn:Hexec; [|done].
    by destruct (exec_nonneg q db db' r).
  - destruct Hp as (Hq & Hnone & Hsome). unfold perform.
    destruct (f _ _); [done|].
    destruct (exec q db) as [[db' r]|] eqn:Hexec; [|done].
    destruct (exec_nonneg q db db' r) as [Hdb' Hr]; [done..|].
    split; [done|]. by apply Hsome.
Qed.

Lemma run_nonneg (f : Faults) (p : Proc) (db : DB) :
  proc_nonneg p -> counters_nonneg db -> counters_nonneg (run f p db).1.
Proof.
  revert db. induction p as [| |r k IH|n k IH|R q k IH|R q k IH];
    intros db Hp Hdb; cbn in *.
  - done.
  - done.
  - specialize (IH db Hp Hdb). by destruct (run f k db).
  - specialize (IH db Hp Hdb). by destruct (run f k db).
  - destruct Hp as [Hq Hk]. unfold perform. destruct (f _ _); [by apply IH|].
    destruct (exec q db) as [[db' r]|] eqn:Hexec; [|by apply IH].
    apply IH; [done|]. by destruct (exec_nonneg q db db' r).
  - destruct Hp as (Hq & Hnone & Hsome). unfold perform.
    destruct (f _ _); [by apply IH|].
    destruct (exec q db) as [[db' r]|] eqn:Hexec; [|by apply IH].
    destruct (exec_nonneg q db db' r) as [Hdb' Hr]; [done..|].
    apply IH; [by apply Hsome|done].
Qed.

Lemma run_two_nonneg (f : Faults) (sched : list bool) (p1 p2 : Proc) (db : DB) :
  proc_nonneg p1 -> proc_nonneg p2 -> counters_nonneg db ->
  counters_nonneg (run_two f sched p1 p2 db).1.1.
Proof.
  revert p1 p2 db. induction sched as [|[] s IH]; intros p1 p2 db H1 H2 Hdb; cbn.
  - pose proof (run_nonneg f p1 db H1 Hdb) as Hdb1.
    destruct (run f p1 db) as [db1 t1].
    pose proof (run_nonneg f p2 db1 H2 Hdb1) as Hdb2.
    by destruct (run f p2 db1) as [db2 t2].
  - destruct (step_nonneg f p1 db H1 Hdb) as [Hdb' H1'].
    destruct (step f p1 db) as [[db' p1'] e].
    specialize (IH p1' p2 db' H1' H2 Hdb').
    by destruct (run_two f s p1' p2 db') as [[db'' t1] t2].
  - destruct (step_nonneg f p2 db H2 Hdb) as [Hdb' H2'].
    destruct (step f p2 db) as [[db' p2'] e].
    specialize (IH p1 p2' db' H1 H2' Hdb').
    by destruct (run_two f s p1 p2' db') as [[db'' t1] t2].
Qed.

Lemma record_responses_nonneg (user : UserInstance) (task : TaskInstance)
    (ob : Z) (ot : string) (nb taskId : Z) (resp ids : json) (created : option Z) :
  proc_nonneg (record_responses user task ob ot nb taskId resp ids created).
Proof.
  unfold record_responses. destruct ids; cbn; try done.
  destruct (response_rows _ _ _ _); cbn; [|done].
  split; [done|]. split; [done|]. intros _ _. split; [done|]. split; [done|]. done.
Qed.

Lemma handler_nonneg (r : Request) : request_nonneg r -> proc_nonneg (handler r).
Proof.
  destruct r as [b|taskId|taskId|lastUpdated|user b]; cbn [handler request_nonneg];
    intros Hr.
  - unfold task_add. destruct (negb _); [done|]. destruct (_ || _); [done|].
    cbn. split; [done|]. split; [done|]. intros created _.
    split; [done|]. split; [done|]. done.
  - cbn. split; [done|]. split; [done|]. intros [] _. done.
  - cbn. split; [done|]. split; [done|]. done.
  - cbn. split; [done|]. split; [done|]. done.
  - unfold task_respond.
    destruct (JSON_parse (req_responses b)) as [resp|]; [|done].
    destruct (JSON_parse (req_taskActionIds b)) as [ids|]; [|done].
    cbn -[respond_found]. split; [done|]. split; [done|].
    intros [task|] Hfound; [|done]. specialize (Hfound task eq_refl).
    unfold respond_found.
    destruct (Z.eqb_spec (answersLeft (ti_row task)) 0) as [Hz|Hnz]; [done|].
    destruct (acceptingNewResponses task); [done|].
    destruct (ti_user task) as [owner|]; [|done].
    unfold accept_response. cbn -[record_responses].
    split; [done|]. split; [done|]. split; [lia|]. split; [done|].
    split; [apply record_responses_nonneg|].
    intros rid _. apply record_responses_nonneg.
Qed.

(** X14: no schedule takes a counter below 0.  The decrement writes the
    counter that was read, less one, and only when that was not 0: on a
    store with no negative counter, two handlers run under any schedule
    and any faults leave no negative counter, provided a task that is
    added is not added with one. *)
Theorem no_schedule_makes_a_counter_negative
    (f : Faults) (sched : list bool) (r1 r2 : Request) (db : DB) :
  counters_nonneg db -> request_nonneg r1 -> request_nonneg r2 ->
  counters_nonneg (run_two f sched (handler r1) (handler r2) db).1.1.
Proof.
  intros Hdb H1 H2. apply run_two_nonneg; [by apply handler_nonneg..|done].
Qed.

(** ** What a task keeps *)

Lemma change_row (db db' : DB) (id : Z) (t' : Task) :
  tasks_change db db' -> id < next_task_id db ->
  tasks db' !! id = Some t' ->
  exists t, tasks db !! id = Some t /\ t' = set_answersLeft (answersLeft t') t.
Proof.
  intros [Ht Hn|t Ht Hn|k Ht Hn|k t Hin Hnz Ht Hn] Hid; rewrite Ht.
  - intros Hin. exists t'. split; [done|]. by destruct t'.
  - rewrite lookup_insert_ne by lia. intros Hin. exists t'. split; [done|].
    by destruct t'.
  - rewrite lookup_delete. destruct (decide (k = id)); [done|].
    intros Hin. exists t'. split; [done|]. by destruct t'.
  - rewrite lookup_alter. destruct (decide (k = id)) as [->|_].
    + rewrite Hin. cbn. intros [= <-]. exists t. done.
    + intros Hin'. exists t'. split; [done|]. by destruct t'.
Qed.

(** X15: a task keeps its owner, its name, its cost, its refresh rate and
    its expiry for as long as it exists, and its key is not given to
    another task after it was deleted: over any sequence of requests,
    the task found under a key is the task that was there, up to its
    counter. *)
Theorem task_keeps_owner_and_cost (ops : list Op) (db : DB) (id : Z) (t t' : Task) :
  keys_fresh db ->
  tasks db !! id = Some t ->
  tasks (apply_ops ops db) !! id = Some t' ->
  t' = set_answersLeft (answersLeft t') t.
Proof.
  intros Hfresh Hin. revert t'.
  induction ops as [|o ops IH] using rev_ind; intros t' Hin'.
  - cbn in Hin'. rewrite Hin in Hin'. injection Hin' as <-. by destruct t.
  - rewrite apply_ops_snoc in Hin'.
    destruct (apply_ops_counter ops db Hfresh) as (Hfresh' & Hnext & _).
    destruct (change_row _ _ id t' (apply_op_change o (apply_ops ops db)))
      as (t1 & Hin1 & ->); [|done|].
    { specialize (Hfresh id t Hin). cbn in Hfresh. lia. }
    rewrite (IH t1 Hin1). done.
Qed.

(** X16: a key that was given out and has no task, because the task was
    deleted, never has one again: no later request brings a task back
    under it. *)
Theorem deleted_key_stays_empty (ops : list Op) (db : DB) (id : Z) :
  keys_fresh db ->
  id < next_task_id db ->
  tasks db !! id = None ->
  tasks (apply_ops ops db) !! id = None.
Proof.
  intros Hfresh Hid Hnone. induction ops as [|o ops IH] using rev_ind; [done|].
  rewrite apply_ops_snoc.
  destruct (apply_ops_counter ops db Hfresh) as (Hfresh' & Hnext & _).
  destruct (tasks (apply_op o (apply_ops ops db)) !! id) as [t'|] eqn:Hin; [|done].
  destruct (change_counter _ _ id t' (apply_op_change o (apply_ops ops db)))
    as (t1 & Hin1 & _); [lia|done|].
  by rewrite IH in Hin1.
Qed.

End More.

(** ** Examples for the properties above *)


Lemma sync_reports_what_was_added_witness :
  let db := tick 5 store2 in
  let db' := @apply_ops node
               [Call no_faults (ReqAdd (add_body "5" "2" "40.7" "-74"))] db in
  Forall (fun e => cl_createdAt e <= 1000) (changelogs db) /\
  newer_than 1000 db' = [{| cl_taskId := 2; cl_status := CREATED; cl_createdAt := 1005 |}] /\
  @run node no_faults (task_sync 1000) db' =
    (db', [Sent (ChangeLogJson 1005 [(2, CREATED)])]).
Proof.
  assert (Hold : Forall (fun e => cl_createdAt e <= 1000) (changelogs (tick 5 store2))).
  { let l := eval vm_compute in (changelogs (tick 5 store2)) in
    change (Forall (fun e => cl_createdAt e <= 1000) l).
    repeat constructor. cbn. lia. }
  destruct (@sync_reports_what_was_added node
              [Call no_faults (ReqAdd (add_body "5" "2" "40.7" "-74"))]
              (tick 5 store2) 1000 Hold ltac:(by vm_compute)) as (Hnew & _ & Hrun).
  split; [exact Hold|]. split; [exact Hnew|exact Hrun].
Defined.


Lemma unusable_answers_are_paid_for_witness :
  let out := @run node no_faults (@task_respond node ann respond3) store1 in
  out.2 = [Crashed] /\
  balance <$> users out.1 !! 1 = Some 95 /\
  balance <$> users out.1 !! 2 = Some 15 /\
  answersLeft <$> tasks out.1 !! 1 = Some 0 /\
  taskresponses out.1 =
    [{| tr_id := 1; tr_userId := 2; tr_taskId := 1; tr_createdAt := 1000 |}] /\
  taskactionresponses out.1 = [] /\
  changelogs out.1 = [].
Proof.
  assert (Hbad : (forall l, seven <> JArr l) \/
                 (JObj [] = JNull /\ exists i l, seven = JArr (i :: l))).
  { left. done. }
  pose proof (@unusable_answers_are_paid_for node store1 ann respond3 (JObj []) seven
                _ _ _ eq_refl eq_refl Hbad eq_refl eq_refl eq_refl
                ltac:(done) ltac:(done) eq_refl) as Hout.
  exact Hout.
Defined.



Lemma deleted_task_is_gone_but_reported_witness :
  let out := @run node no_faults (task_delete 1) store1 in
  out.2 = [Sent RedirectIndex] /\
  tasks out.1 !! 1 = None /\
  @run node no_faults (@task_fetch node (Some "[1]"%string)) out.1 =
    (out.1, [Sent (Tasks [])]) /\
  exists changes,
    @run node no_faults (task_sync 0) out.1 =
      (out.1, [Sent (ChangeLogJson 1000 (changes ++ [(1, DELETED)]))]).
Proof.
  destruct (@deleted_task_is_gone_but_reported node store1 1 _ "[1]" 0
              eq_refl ltac:(done) eq_refl ltac:(done))
    as (Hevents & Htasks & Hfetch & Hsync).
  split; [exact Hevents|]. split; [by rewrite Htasks|].
  split; [exact Hfetch|exact Hsync].
Defined.



Lemma fetch_returns_the_requested_tasks_witness :
  @JSON_parse node "[1,9,1]" = Some (json_ids [1; 9; 1]) /\
  exists found,
    @run node no_faults (@task_fetch node (Some "[1,9,1]"%string)) store1 =
      (store1, [Sent (Tasks found)]) /\
    NoDup (agg_id <$> found) /\
    forall agg, agg ∈ found <->
      exists id t, id ∈ [1; 9; 1] /\ tasks store1 !! id = Some t /\
                   agg = @aggregate_of_task store1 id t.
Proof.
  split; [reflexivity|].
  exact (@fetch_returns_the_requested_tasks node store1 "[1,9,1]" [1; 9; 1]
           ltac:(done) eq_refl).
Defined.

Lemma no_schedule_makes_a_counter_negative_witness :
  counters_nonneg store1 /\
  counters_nonneg
    (@run_two node no_faults [true; false; true; true; false]
       (@handler node (ReqRespond ann respond1))
       (@handler node (ReqRespond bob respond1)) store1).1.1.
Proof.
  assert (Hdb : counters_nonneg store1).
  { apply map_Forall_insert_2; [done|]. apply map_Forall_empty. }
  split; [exact Hdb|].
  exact (@no_schedule_makes_a_counter_negative node no_faults
           [true; false; true; true; false]
           (ReqRespond ann respond1) (ReqRespond bob respond1) store1 Hdb I I).
Defined.

Lemma task_keeps_owner_and_cost_witness :
  keys_fresh store1 /\
  let db' := @apply_ops node
               [Call no_faults (ReqRespond ann respond1);
                Call no_faults (ReqDelete 9);
                Call no_faults (ReqAdd (add_body "7" "3" "40.7" "-74"))] store1 in
  exists t', tasks db' !! 1 = Some t' /\ answersLeft t' = 0 /\
             userId t' = 1 /\ cost t' = 5 /\ name t' = "count the cars"%string.
Proof.
  assert (Hfresh : keys_fresh store1).
  { apply map_Forall_insert_2; [done|]. apply map_Forall_empty. }
  split; [exact Hfresh|].
  eexists. split; [reflexivity|].
  pose proof (@task_keeps_owner_and_cost node
    [Call no_faults (ReqRespond ann respond1); Call no_faults (ReqDelete 9);
     Call no_faults (ReqAdd (add_body "7" "3" "40.7" "-74"))]
    store1 1 _ _ Hfresh eq_refl eq_refl) as Heq.
  rewrite Heq. repeat split.
Defined.


Lemma deleted_key_stays_empty_witness :
  keys_fresh store2 /\ tasks store2 !! 1 = None /\
  tasks (@apply_ops node
           [Call no_faults (ReqAdd (add_body "5" "2" "40.7" "-74"));
            Call no_faults (ReqRespond ann respond1);
            Call no_faults (ReqDelete 1)] store2) !! 1 = None.
Proof.
  assert (Hfresh : keys_fresh store2).
  { unfold keys_fresh. cbn. apply map_Forall_delete.
    apply map_Forall_insert_2; [done|]. apply map_Forall_empty. }
  split; [exact Hfresh|]. split; [reflexivity|].
  exact (@deleted_key_stays_empty node _ store2 1 Hfresh ltac:(done) eq_refl).
Defined.
